(** * clean_trade_log.py: the filter loop, the report and the cleaned log

    A shallow embedding of [clean_trade_log.py].  The script loads the
    list [data['trades']] from a JSON file, keeps the records that pass
    three tests (price moved, plausible P&L, key not yet seen), prints
    some statistics about the kept records and writes them back together
    with a few counters.

    The records are Python dicts produced by [json.load]; their numbers
    are Python [int]s (unbounded) or [float]s (IEEE 754 binary64,
    including the infinities and NaN, which [json.load] accepts).

    Modelled: the loop of lines 28-46, the statistics of lines 51-68 with
    the exceptions they can raise, the dict of lines 71-79, and, in [run],
    the backup copy and the reading and writing of the log, on a map from
    paths to contents.  Left out: the printed text and the time stamp
    [cleaned_at]. *)

From Stdlib Require Import ZArith QArith Bool Lia.
From Stdlib Require Import Floats.SpecFloat.
From Stdlib Require Import Ascii.
From stdpp Require Import gmap strings list.

Local Open Scope Z_scope.

(** ** Python numbers *)

(** A JSON number is loaded as an [int] when it has no fraction and no
    exponent, as a [float] otherwise.  Every double is a [spec_float];
    the statements below hold for all values of the type. *)
Inductive number :=
  | PyInt (z : Z)
  | PyFloat (f : spec_float).

Definition prec : Z := 53.
Definition emax : Z := 1024.

(** The mathematical value of a number: a rational, an infinity, or none. *)
Inductive xvalue :=
  | VNaN
  | VNegInf
  | VFin (q : Q)
  | VPosInf.

(** [m * 2^e] as a rational. *)
Definition dyadic (m e : Z) : Q :=
  match e with
  | Zneg p => Qmake m (Pos.pow 2 p)
  | _ => inject_Z (m * 2 ^ e)
  end.

Definition float_value (f : spec_float) : xvalue :=
  match f with
  | S754_zero _ => VFin (inject_Z 0)
  | S754_infinity s => if s then VNegInf else VPosInf
  | S754_nan => VNaN
  | S754_finite s m e => VFin (dyadic (cond_Zopp s (Zpos m)) e)
  end.

Definition value (x : number) : xvalue :=
  match x with
  | PyInt z => VFin (inject_Z z)
  | PyFloat f => float_value f
  end.

(** Python compares [int]s and [float]s by their exact values; every
    comparison with NaN is false, except [!=]. *)
Definition xcompare (a b : xvalue) : option comparison :=
  match a, b with
  | VNaN, _ | _, VNaN => None
  | VNegInf, VNegInf => Some Eq
  | VNegInf, _ => Some Lt
  | _, VNegInf => Some Gt
  | VPosInf, VPosInf => Some Eq
  | VPosInf, _ => Some Gt
  | _, VPosInf => Some Lt
  | VFin p, VFin q => Some (Qcompare p q)
  end.

Definition py_compare (x y : number) : option comparison :=
  xcompare (value x) (value y).

(** [x == y] *)
Definition py_eq (x y : number) : bool :=
  match py_compare x y with Some Eq => true | _ => false end.

(** [x != y] *)
Definition py_ne (x y : number) : bool := negb (py_eq x y).

(** [x > y] *)
Definition py_gt (x y : number) : bool :=
  match py_compare x y with Some Gt => true | _ => false end.

(** [x <= y] *)
Definition py_le (x y : number) : bool :=
  match py_compare x y with Some (Lt | Eq) => true | _ => false end.

(** [abs(x)] *)
Definition py_abs (x : number) : number :=
  match x with
  | PyInt z => PyInt (Z.abs z)
  | PyFloat f => PyFloat (SFabs f)
  end.

Definition is_nan (x : number) : bool :=
  match x with
  | PyFloat S754_nan => true
  | _ => false
  end.

(** The double nearest to [n / d] (ties to even), with sign [s] when the
    quotient is zero or rounds to zero: what [strtod], and so [json.load],
    returns for a decimal numeral of that value. *)
Definition nearest_double (s : bool) (n : Z) (d : positive) : spec_float :=
  match n with
  | Z0 => S754_zero s
  | _ =>
      let '(q, e, l) := SFdiv_core_binary prec emax (Z.abs n) 0 (Zpos d) 0 in
      binary_round_aux prec emax s q e l
  end.

(** The float written [n / d] in a JSON file, for instance
    [json_float 11 10] for [1.1]. *)
Definition json_float (n : Z) (d : positive) : number :=
  PyFloat (nearest_double (n <? 0) n d).

(** The integer nearest to [q], ties to the even one. *)
Definition round_half_even (q : Q) : Z :=
  let n := Qnum q in
  let d := Zpos (Qden q) in
  let f := n / d in
  match Z.compare (2 * (n mod d)) d with
  | Lt => f
  | Gt => f + 1
  | Eq => if Z.even f then f else f + 1
  end.

(** [round(x, 4)].  An [int] is returned as it is.  A finite [float] is
    rounded, by its exact value, to the nearest multiple of [10^-4] with
    ties to the even multiple, and the double nearest to that decimal is
    returned; zeros, infinities and NaN are returned as they are. *)
Definition py_round4 (x : number) : number :=
  match x with
  | PyInt z => PyInt z
  | PyFloat (S754_finite s m e) =>
      let n := round_half_even (Qmult (dyadic (Zpos m) e) (inject_Z 10000)) in
      PyFloat (nearest_double s n 10000)
  | PyFloat f => PyFloat f
  end.

(** ** Exceptions *)

(** The exceptions the modelled statements can raise on well-typed
    records. *)
Inductive exn :=
  | KeyError (k : string)
  | ZeroDivisionError
  | OverflowError.

Inductive result (A : Type) :=
  | Ok (a : A)
  | Raise (e : exn).
Arguments Ok {A} a.
Arguments Raise {A} e.

#[global] Instance result_ret : MRet result := fun _ a => Ok a.
#[global] Instance result_bind : MBind result := fun _ _ f m =>
  match m with
  | Ok a => f a
  | Raise e => Raise e
  end.
#[global] Instance result_fmap : FMap result := fun _ _ f m =>
  match m with
  | Ok a => Ok (f a)
  | Raise e => Raise e
  end.

(** ** Arithmetic of the report *)

(** [float(z)]: the nearest double, or OverflowError when there is none. *)
Definition int_to_float (z : Z) : result spec_float :=
  match binary_normalize prec emax z 0 false with
  | S754_infinity _ => Raise OverflowError
  | f => Ok f
  end.

Definition to_float (x : number) : result spec_float :=
  match x with
  | PyInt z => int_to_float z
  | PyFloat f => Ok f
  end.

(** [x + y] *)
Definition py_add (x y : number) : result number :=
  match x, y with
  | PyInt a, PyInt b => Ok (PyInt (a + b))
  | _, _ =>
      a ← to_float x; b ← to_float y;
      Ok (PyFloat (SFadd prec emax a b))
  end.

(** [x * y] *)
Definition py_mul (x y : number) : result number :=
  match x, y with
  | PyInt a, PyInt b => Ok (PyInt (a * b))
  | _, _ =>
      a ← to_float x; b ← to_float y;
      Ok (PyFloat (SFmul prec emax a b))
  end.

Definition float_is_zero (f : spec_float) : bool :=
  match f with
  | S754_zero _ => true
  | _ => false
  end.

(** [x / y]: true division.  Two [int]s give the double nearest to the
    exact quotient; otherwise both operands are converted and divided as
    doubles.  A zero divisor raises ZeroDivisionError. *)
Definition py_truediv (x y : number) : result number :=
  match x, y with
  | PyInt a, PyInt b =>
      if b =? 0 then Raise ZeroDivisionError
      else
        match nearest_double (xorb (a <? 0) (b <? 0)) a (Z.to_pos (Z.abs b)) with
        | S754_infinity _ => Raise OverflowError
        | f => Ok (PyFloat f)
        end
  | _, _ =>
      a ← to_float x; b ← to_float y;
      if float_is_zero b then Raise ZeroDivisionError
      else Ok (PyFloat (SFdiv prec emax a b))
  end.

(** [sum(l)]: additions from the left, starting at the [int] 0.  (From
    CPython 3.12 on, [sum] compensates the rounding errors of float
    additions; the script prints the total with two decimals and nothing
    below depends on its last bits.) *)
Fixpoint py_sum_from (acc : number) (l : list number) : result number :=
  match l with
  | [] => Ok acc
  | x :: l' => acc' ← py_add acc x; py_sum_from acc' l'
  end.

Definition py_sum (l : list number) : result number := py_sum_from (PyInt 0) l.

(** Formatting with [:.1f], [:.2f] or [:.6f]: an [int] is first converted
    to a [float], which fails when it is too large; the text itself is
    not modelled. *)
Definition format_f (x : number) : result unit :=
  _ ← to_float x; Ok tt.

(** ** Trade records *)

(** A record of [data['trades']] with the fields the script reads.  The
    key [reason] may be absent.  Other keys of the dict are carried along
    and never read. *)
Module Trade.
Record t := mk {
  pair : string;
  entry : number;
  exit : number;
  pnl : number;
  reason : option string
}.
End Trade.
Abbreviation trade := Trade.t.

(** ** The filter loop *)

(** The tuple [(t['pair'], t['entry'], t['exit'], round(t['pnl'], 4))]. *)
Definition key : Type := string * number * number * number.

Definition trade_key (t : trade) : key :=
  (Trade.pair t, Trade.entry t, Trade.exit t, py_round4 (Trade.pnl t)).

(** Membership in a set compares the components of two tuples with
    [a is b or a == b].  For strings and for numbers other than NaN the
    first test adds nothing.  [json.load] returns one and the same float
    object for every [NaN] in the file, so two NaN prices are the same
    object; [round] returns a new float object, so a NaN rounded P&L is
    the same as nothing stored before. *)
Definition same_or_eq (x y : number) : bool :=
  (is_nan x && is_nan y) || py_eq x y.

Definition key_eq (k1 k2 : key) : bool :=
  let '(p1, e1, x1, r1) := k1 in
  let '(p2, e2, x2, r2) := k2 in
  String.eqb p1 p2 && same_or_eq e1 e2 && same_or_eq x1 x2 && py_eq r1 r2.

(** [key in seen], the set [seen] given by the list of the keys added to
    it, latest first. *)
Definition key_in (k : key) (seen : list key) : bool :=
  existsb (fun k' => key_eq k' k) seen.

(** Where one iteration of [for t in trades] ends: at one of the three
    [continue] statements, or at the [append]. *)
Inductive outcome :=
  | SkipFake
  | SkipOutlier
  | SkipDuplicate
  | Keep.

Definition decide_trade (seen : list key) (t : trade) : outcome :=
  if py_eq (Trade.entry t) (Trade.exit t) then SkipFake
  else if py_gt (py_abs (Trade.pnl t)) (PyInt 50) then SkipOutlier
  else if key_in (trade_key t) seen then SkipDuplicate
  else Keep.

(** One iteration, on the pair [(valid_trades, seen)]: the record that
    reaches the end of the body is added to both. *)
Definition loop_body (st : list trade * list key) (t : trade)
  : list trade * list key :=
  let '(valid_trades, seen) := st in
  match decide_trade seen t with
  | Keep => (valid_trades ++ [t], trade_key t :: seen)
  | _ => st
  end.

Definition filter_loop (trades : list trade) : list trade * list key :=
  fold_left loop_body trades ([], []).

Definition valid_trades (trades : list trade) : list trade :=
  fst (filter_loop trades).

Definition seen (trades : list trade) : list key :=
  snd (filter_loop trades).

(** The outcomes of the iterations, in order, from a given state on. *)
Fixpoint outcomes_from (st : list trade * list key) (trades : list trade)
  : list outcome :=
  match trades with
  | [] => []
  | t :: trades' => decide_trade (snd st) t :: outcomes_from (loop_body st t) trades'
  end.

Definition outcomes (trades : list trade) : list outcome :=
  outcomes_from ([], []) trades.

(** A record passes the first two tests. *)
Definition survives (t : trade) : bool :=
  negb (py_eq (Trade.entry t) (Trade.exit t))
  && negb (py_gt (py_abs (Trade.pnl t)) (PyInt 50)).

(** ** The report *)

(** What one line of the sample shows. *)
Record sample_line := {
  s_pair : string;
  s_entry : number;
  s_exit : number;
  s_pnl : number;
  s_reason : string
}.

(** The f-string of the sample: its fields are evaluated from left to
    right, and [t['reason']] raises KeyError when the key is absent. *)
Definition show_trade (t : trade) : result sample_line :=
  _ ← format_f (Trade.entry t);
  _ ← format_f (Trade.exit t);
  _ ← format_f (Trade.pnl t);
  match Trade.reason t with
  | None => Raise (KeyError "reason")
  | Some r =>
      Ok {| s_pair := Trade.pair t; s_entry := Trade.entry t;
            s_exit := Trade.exit t; s_pnl := Trade.pnl t; s_reason := r |}
  end.

(** [reasons[r] = reasons.get(r, 0) + 1] with [r = t.get('reason', 'unknown')]. *)
Definition count_reason (reasons : gmap string nat) (t : trade)
  : gmap string nat :=
  let r := default "unknown" (Trade.reason t) in
  <[r := (default 0 (reasons !! r) + 1)%nat]> reasons.

Definition reason_breakdown (valid_trades : list trade) : gmap string nat :=
  fold_left count_reason valid_trades ∅.

Record report := {
  wins : nat;
  win_percent : number;
  total_pnl : number;
  avg_pnl : number;
  reasons : gmap string nat;
  sample : list sample_line
}.

Definition py_len {A} (l : list A) : number := PyInt (Z.of_nat (length l)).

(** The body of [if valid_trades:]. *)
Definition stats (valid_trades : list trade) : result report :=
  let wins :=
    length (List.filter (fun t => py_gt (Trade.pnl t) (PyInt 0)) valid_trades) in
  total_pnl ← py_sum (map Trade.pnl valid_trades);
  rate ← py_truediv (PyInt (Z.of_nat wins)) (py_len valid_trades);
  percent ← py_mul rate (PyInt 100);
  _ ← format_f percent;
  _ ← format_f total_pnl;
  avg ← py_truediv total_pnl (py_len valid_trades);
  _ ← format_f avg;
  let reasons := reason_breakdown valid_trades in
  sample ← mapM show_trade (take 10 valid_trades);
  Ok {| wins := wins; win_percent := percent; total_pnl := total_pnl;
        avg_pnl := avg; reasons := reasons; sample := sample |}.

(** ** The cleaned log *)

(** The dict written back, without its time stamp [cleaned_at]. *)
Record cleaned_log := {
  version : string;
  total_trades : nat;
  original_count : nat;
  removed_fake_trades : nat;
  removed_outliers : nat;
  trades : list trade
}.

Definition is_fake (t : trade) : bool :=
  py_eq (Trade.entry t) (Trade.exit t).

Definition is_outlier (t : trade) : bool :=
  py_ne (Trade.entry t) (Trade.exit t) && py_gt (py_abs (Trade.pnl t)) (PyInt 50).

Definition cleaned_data (trades valid_trades : list trade) : cleaned_log :=
  {| version := "2.0-cleaned";
     total_trades := length valid_trades;
     original_count := length trades;
     removed_fake_trades := length (List.filter is_fake trades);
     removed_outliers := length (List.filter is_outlier trades);
     trades := valid_trades |}.

(** The script from the loaded list on: filter, report when something is
    left, then the dict handed to [json.dump].  An exception in the report
    ends the run before anything is written. *)
Definition main (trades : list trade) : result (option report * cleaned_log) :=
  let valid_trades := valid_trades trades in
  r ← match valid_trades with
      | [] => Ok None
      | _ => Some <$> stats valid_trades
      end;
  Ok (r, cleaned_data trades valid_trades).

(** ** Definitions used by the statements *)

Definition is_keep (o : outcome) : bool :=
  match o with
  | Keep => true
  | _ => false
  end.

(** The records of [trades] whose iteration ended at the [append]. *)
Definition kept_by (trades : list trade) (os : list outcome) : list trade :=
  map fst (List.filter (fun p => is_keep (snd p)) (zip trades os)).

(** The key of [t] occurs on a record of [earlier] that passes the first
    two tests. *)
Definition key_seen_before (earlier : list trade) (t : trade) : Prop :=
  ∃ u, u ∈ earlier ∧ survives u = true
       ∧ key_eq (trade_key u) (trade_key t) = true.

(** No two records of the list have equal keys. *)
Definition keys_distinct (l : list trade) : Prop :=
  ∀ i j u v, (i < j)%nat → l !! i = Some u → l !! j = Some v →
    key_eq (trade_key u) (trade_key v) = false.

(** The dict the script writes for the input [trades]. *)
Definition cleaned_log_of (trades : list trade) : cleaned_log :=
  cleaned_data trades (valid_trades trades).

(** The number of records of [l] for which [p] holds. *)
Fixpoint count_records (p : trade → bool) (l : list trade) : nat :=
  match l with
  | [] => 0
  | t :: l' => (if p t then 1 else 0) + count_records p l'
  end.

Definition is_duplicate (o : outcome) : bool :=
  match o with
  | SkipDuplicate => true
  | _ => false
  end.

(** The number of iterations that ended at the third [continue]. *)
Definition duplicates_dropped (trades : list trade) : nat :=
  length (List.filter is_duplicate (outcomes trades)).

(** [t] has the reason [r], ["unknown"] standing for an absent one. *)
Definition has_reason (r : string) (t : trade) : bool :=
  String.eqb (default "unknown" (Trade.reason t)) r.

(** Example records. *)
Definition sol : trade :=
  Trade.mk "SOL" (PyInt 20) (PyInt 22) (PyInt 10) (Some "take_profit").
Definition sol_float : trade :=
  Trade.mk "SOL" (json_float 20 1) (json_float 22 1) (json_float 1000001 100000)
    (Some "stop").
Definition sol_no_reason : trade :=
  Trade.mk "SOL" (PyInt 20) (PyInt 22) (PyInt 10) None.
Definition btc_fake : trade :=
  Trade.mk "BTC" (PyInt 10) (PyInt 10) (PyInt 60) (Some "scan").
Definition eth_outlier : trade :=
  Trade.mk "ETH" (PyInt 1) (json_float 11 10) (json_float 5000001 100000)
    (Some "take_profit").
Definition eth_fifty : trade :=
  Trade.mk "ETH" (PyInt 1) (json_float 11 10) (PyInt 50) (Some "take_profit").
Definition nan_pnl : trade :=
  Trade.mk "X" (json_float 1 1) (json_float 2 1) (PyFloat S754_nan) (Some "r").


(** ** Definitions used by the further statements *)

(** The three criteria of lines 23-26, one after the other. *)
Definition price_moved (t : trade) : bool :=
  negb (py_eq (Trade.entry t) (Trade.exit t)).

Definition pnl_reasonable (t : trade) : bool :=
  negb (py_gt (py_abs (Trade.pnl t)) (PyInt 50)).

(** The records of [l] whose key is neither in [seen0] nor on an earlier
    record kept from [l]. *)
Fixpoint first_of_each_key (seen0 : list key) (l : list trade) : list trade :=
  match l with
  | [] => []
  | t :: l' =>
      if key_in (trade_key t) seen0 then first_of_each_key seen0 l'
      else t :: first_of_each_key (trade_key t :: seen0) l'
  end.

Definition staged_pipeline (trades : list trade) : list trade :=
  first_of_each_key []
    (List.filter pnl_reasonable (List.filter price_moved trades)).

(** [t] with its [reason] replaced. *)
Definition with_reason (r : option string) (t : trade) : trade :=
  Trade.mk (Trade.pair t) (Trade.entry t) (Trade.exit t) (Trade.pnl t) r.

(** Two sets of keys with the same members. *)
Definition same_members (s s' : list key) : Prop :=
  ∀ k, key_in k s = key_in k s'.

(** The sum of the counts of a breakdown. *)
Definition breakdown_total (m : gmap string nat) : nat :=
  map_fold (fun _ n acc => (n + acc)%nat) 0%nat m.

(** The line the sample shows for [t], whose reason is [r]. *)
Definition line_of (t : trade) (r : string) : sample_line :=
  {| s_pair := Trade.pair t; s_entry := Trade.entry t; s_exit := Trade.exit t;
     s_pnl := Trade.pnl t; s_reason := r |}.

Definition int_total (zs : list Z) : Z := fold_right Z.add 0 zs.

(** [l] with the reasons removed from the record at position [n] on. *)
Definition forget_reasons_from (n : nat) (l : list trade) : list trade :=
  take n l ++ map (with_reason None) (drop n l).

Definition set_reasons (m : gmap string nat) (r : report) : report :=
  {| wins := wins r; win_percent := win_percent r; total_pnl := total_pnl r;
     avg_pnl := avg_pnl r; reasons := m; sample := sample r |}.

(** ** The backup and the files *)

(** What [datetime.now()] returns, without the microseconds. *)
Record datetime := {
  year : N;
  month : N;
  day : N;
  hour : N;
  minute : N;
  second : N
}.

(** The ranges of the fields, for the years that [%Y] prints with four
    digits. *)
Definition valid_datetime (d : datetime) : bool :=
  (1000 <=? year d)%N && (year d <=? 9999)%N
  && (1 <=? month d)%N && (month d <=? 12)%N
  && (1 <=? day d)%N && (day d <=? 31)%N
  && (hour d <=? 23)%N && (minute d <=? 59)%N && (second d <=? 59)%N.

Definition digit (n : N) : ascii := ascii_of_N (48 + n mod 10)%N.

(** [%m], [%d], [%H], [%M], [%S]: two digits, with a leading zero. *)
Definition two_digits (n : N) : string :=
  String (digit (n / 10)%N) (String (digit n) EmptyString).

(** [%Y] *)
Definition four_digits (n : N) : string :=
  two_digits (n / 100)%N +:+ two_digits n.

(** [strftime("%Y%m%d_%H%M%S")] *)
Definition strftime (d : datetime) : string :=
  four_digits (year d) +:+ two_digits (month d) +:+ two_digits (day d)
  +:+ "_" +:+ two_digits (hour d) +:+ two_digits (minute d)
  +:+ two_digits (second d).

Definition trade_log_path : string := "bot/build/trade_log.json".

Definition backup_path (now : datetime) : string :=
  "bot/build/trade_log_backup_" +:+ strftime now +:+ ".json".

(** What the files hold, as far as the script can tell: [json.load] and
    [data['trades']] give the list of records of a file or fail, and what
    [json.dump] writes for a cleaned log is loaded back with its
    [trades]. *)
Class JsonFile (contents : Type) := {
  load_trades : contents → option (list trade);
  dump : cleaned_log → contents;
  load_dump c : load_trades (dump c) = Some (trades c)
}.

(** How a run of the script can end early: [shutil.copy] finds no log,
    [json.load] or [data['trades']] fails, or the report raises. *)
Inductive script_exn :=
  | FileNotFoundError
  | LoadError
  | ReportError (e : exn).

(** The script on the files: copy the log to the backup, load it, filter
    and report, and write the cleaned log over the log.  The result is
    the files after the run, with the exception that ended it or the
    report and the dict written. *)
Definition run `{JsonFile contents} (now : datetime) (fs : gmap string contents)
  : gmap string contents * (script_exn + option report * cleaned_log) :=
  match fs !! trade_log_path with
  | None => (fs, inl FileNotFoundError)
  | Some original =>
      let fs1 := <[backup_path now := original]> fs in
      match load_trades original with
      | None => (fs1, inl LoadError)
      | Some trades =>
          match main trades with
          | Raise e => (fs1, inl (ReportError e))
          | Ok out => (<[trade_log_path := dump (snd out)]> fs1, inr out)
          end
      end
  end.

(** An instance: a file is a raw log, a cleaned log or something else. *)
Inductive log_file :=
  | RawLog (trades : list trade)
  | CleanedLog (c : cleaned_log)
  | NotALog.

#[global] Instance log_file_json : JsonFile log_file := {|
  load_trades f :=
    match f with
    | RawLog l => Some l
    | CleanedLog c => Some (trades c)
    | NotALog => None
    end;
  dump := CleanedLog;
  load_dump c := eq_refl
|}.

(** Example times and files. *)
Definition new_year : datetime :=
  {| year := 2026; month := 1; day := 1; hour := 0; minute := 0; second := 0 |}.
Definition a_second_later : datetime :=
  {| year := 2026; month := 1; day := 1; hour := 0; minute := 0; second := 1 |}.
Definition two_sol_files : gmap string log_file :=
  {[ trade_log_path := RawLog [sol; sol_float] ]}.


(** The key of two records is the same: the pairs are the same string, the
    entries are equal, the exits are equal, and the P&Ls rounded to four
    decimals are equal, each as Python compares them. *)
Definition same_key (u t : trade) : bool :=
  String.eqb (Trade.pair u) (Trade.pair t)
  && same_or_eq (Trade.entry u) (Trade.entry t)
  && same_or_eq (Trade.exit u) (Trade.exit t)
  && py_eq (py_round4 (Trade.pnl u)) (py_round4 (Trade.pnl t)).

(** Records that differ in one component of the key: [eth_4dp] from
    [sol_4dp] in the pair, [sol_4dp_next] in the fourth decimal of the P&L
    (10.0001 and 10.0002); [sol_5dp] and [sol_5dp_up] differ from
    [sol_4dp] in the fifth decimal only (10.00014 and 10.00006, both
    rounded to 10.0001), and in the type of the prices and the reason. *)
Definition sol_4dp : trade :=
  Trade.mk "SOL" (PyInt 20) (PyInt 22) (json_float 100001 10000) (Some "a").
Definition eth_4dp : trade :=
  Trade.mk "ETH" (PyInt 20) (PyInt 22) (json_float 100001 10000) (Some "a").
Definition sol_4dp_next : trade :=
  Trade.mk "SOL" (PyInt 20) (PyInt 22) (json_float 100002 10000) (Some "a").
Definition sol_5dp : trade :=
  Trade.mk "SOL" (json_float 20 1) (json_float 22 1) (json_float 1000014 100000)
    (Some "b").
Definition sol_5dp_up : trade :=
  Trade.mk "SOL" (PyInt 20) (PyInt 22) (json_float 1000006 100000) None.
Definition five_keys : list trade :=
  [sol_4dp; eth_4dp; sol_4dp_next; sol_5dp; sol_5dp_up].

(** Twelve records with twelve keys, each with a reason. *)
Definition twelve_trades : list trade :=
  map (fun i => Trade.mk "SOL" (PyInt 20) (PyInt (21 + Z.of_nat i)) (PyInt 10)
                  (Some "take_profit"))
      (seq 0 12).

(** * Properties *)

(** ** Comparison of numbers *)

Section Comparison.

Lemma xcompare_eq_sym a b :
  xcompare a b = Some Eq → xcompare b a = Some Eq.
Proof.
  destruct a, b; simpl; try discriminate; try reflexivity.
  intros H. injection H as H. f_equal.
  apply Qeq_alt. symmetry. by apply Qeq_alt.
Qed.

Lemma xcompare_eq_trans a b c :
  xcompare a b = Some Eq → xcompare b c = Some Eq → xcompare a c = Some Eq.
Proof.
  destruct a, b, c; simpl; try discriminate; try reflexivity.
  intros H1 H2. injection H1 as H1. injection H2 as H2. f_equal.
  apply Qeq_alt. etransitivity; by apply Qeq_alt.
Qed.

Lemma py_eq_compare x y : py_eq x y = true ↔ py_compare x y = Some Eq.
Proof.
  unfold py_eq. destruct (py_compare x y) as [[]|]; split; congruence.
Qed.

Lemma py_eq_sym x y : py_eq x y = py_eq y x.
Proof.
  apply eq_true_iff_eq. rewrite !py_eq_compare.
  split; apply xcompare_eq_sym.
Qed.

Lemma py_eq_trans x y z :
  py_eq x y = true → py_eq y z = true → py_eq x z = true.
Proof. rewrite !py_eq_compare. apply xcompare_eq_trans. Qed.

Lemma py_eq_nan_l x y : is_nan x = true → py_eq x y = false.
Proof. destruct x as [|[]]; try discriminate. reflexivity. Qed.

Lemma py_eq_nan_r x y : is_nan y = true → py_eq x y = false.
Proof. intros H. rewrite py_eq_sym. by apply py_eq_nan_l. Qed.

(** With NaN on neither side, [x > y] fails exactly when [x <= y] holds. *)
Lemma py_le_not_gt x y :
  is_nan x = false → is_nan y = false → py_le x y = negb (py_gt x y).
Proof.
  unfold py_le, py_gt, py_compare.
  destruct x as [a|[]], y as [b|[]]; simpl; try discriminate; intros _ _;
    try reflexivity; try (by destruct s); try (by destruct s, s0);
    by match goal with |- context [Qcompare ?p ?q] => destruct (Qcompare p q) end.
Qed.

Lemma is_nan_abs x : is_nan (py_abs x) = is_nan x.
Proof. by destruct x as [|[]]. Qed.

Lemma same_or_eq_sym x y : same_or_eq x y = same_or_eq y x.
Proof. unfold same_or_eq. by rewrite py_eq_sym, (andb_comm (is_nan x)). Qed.

Lemma same_or_eq_trans x y z :
  same_or_eq x y = true → same_or_eq y z = true → same_or_eq x z = true.
Proof.
  unfold same_or_eq. intros H1 H2.
  destruct (is_nan x) eqn:Hx, (is_nan y) eqn:Hy, (is_nan z) eqn:Hz;
    simpl in *; try reflexivity;
    rewrite ?(py_eq_nan_l x), ?(py_eq_nan_l y), ?(py_eq_nan_r _ y),
      ?(py_eq_nan_r _ z) in * by done; try discriminate.
  eauto using py_eq_trans.
Qed.

(** On numbers that are equal, the first test of the loop agrees. *)
Lemma same_or_eq_fake e1 x1 e2 x2 :
  same_or_eq e1 e2 = true → same_or_eq x1 x2 = true →
  py_eq e1 x1 = py_eq e2 x2.
Proof.
  unfold same_or_eq. intros He Hx.
  destruct (is_nan e1) eqn:N1.
  - destruct (is_nan e2) eqn:N2.
    + by rewrite !py_eq_nan_l.
    + simpl in He. by rewrite py_eq_nan_l in He.
  - simpl in He. destruct (is_nan x1) eqn:N3.
    + destruct (is_nan x2) eqn:N4.
      * by rewrite !py_eq_nan_r.
      * simpl in Hx. by rewrite py_eq_nan_l in Hx.
    + simpl in Hx. apply eq_true_iff_eq. split; intros H.
      * apply py_eq_trans with e1; [by rewrite py_eq_sym|].
        by apply py_eq_trans with x1.
      * apply py_eq_trans with e2; [done|].
        apply py_eq_trans with x2; [done|by rewrite py_eq_sym].
Qed.

Lemma key_eq_sym k1 k2 : key_eq k1 k2 = key_eq k2 k1.
Proof.
  destruct k1 as [[[p1 e1] x1] r1], k2 as [[[p2 e2] x2] r2]. simpl.
  by rewrite String.eqb_sym, (same_or_eq_sym e1), (same_or_eq_sym x1),
    (py_eq_sym r1).
Qed.

Lemma key_eq_trans k1 k2 k3 :
  key_eq k1 k2 = true → key_eq k2 k3 = true → key_eq k1 k3 = true.
Proof.
  destruct k1 as [[[p1 e1] x1] r1], k2 as [[[p2 e2] x2] r2],
    k3 as [[[p3 e3] x3] r3]. simpl.
  rewrite !andb_true_iff, !String.eqb_eq.
  intros [[[-> He] Hx] Hr] [[[-> He'] Hx'] Hr'].
  eauto 10 using same_or_eq_trans, py_eq_trans.
Qed.

End Comparison.

Arguments key_eq : simpl never.
Arguments trade_key : simpl never.

(** ** The filter loop *)

Section FilterLoop.
Implicit Types (t u v : trade) (ts pre post : list trade) (k : key).

Lemma decide_trade_keep seen0 t :
  decide_trade seen0 t = Keep ↔
  survives t = true ∧ key_in (trade_key t) seen0 = false.
Proof.
  unfold decide_trade, survives.
  destruct (py_eq _ _), (py_gt _ _), (key_in _ _); simpl;
    split; try discriminate; try (intros [? ?]; discriminate); auto.
Qed.

Lemma decide_trade_survives seen0 t :
  survives t = true →
  decide_trade seen0 t
  = if key_in (trade_key t) seen0 then SkipDuplicate else Keep.
Proof.
  unfold decide_trade, survives.
  destruct (py_eq _ _), (py_gt _ _); simpl; congruence.
Qed.

Lemma filter_loop_snoc ts t :
  filter_loop (ts ++ [t]) = loop_body (filter_loop ts) t.
Proof. unfold filter_loop. by rewrite fold_left_app. Qed.

Lemma filter_loop_eta ts : filter_loop ts = (valid_trades ts, seen ts).
Proof. unfold valid_trades, seen. by destruct (filter_loop ts). Qed.

Lemma valid_trades_snoc ts t :
  valid_trades (ts ++ [t])
  = if is_keep (decide_trade (seen ts) t) then valid_trades ts ++ [t]
    else valid_trades ts.
Proof.
  unfold valid_trades at 1. rewrite filter_loop_snoc, filter_loop_eta.
  simpl. by destruct (decide_trade _ _).
Qed.

Lemma seen_snoc ts t :
  seen (ts ++ [t])
  = if is_keep (decide_trade (seen ts) t) then trade_key t :: seen ts
    else seen ts.
Proof.
  unfold seen at 1. rewrite filter_loop_snoc, filter_loop_eta.
  simpl. by destruct (decide_trade _ _).
Qed.

(** [seen] holds the keys of the kept records and nothing else. *)
Lemma seen_valid_trades ts :
  seen ts = reverse (map trade_key (valid_trades ts)).
Proof.
  induction ts as [|t ts IH] using rev_ind; [done|].
  rewrite seen_snoc, valid_trades_snoc.
  destruct (is_keep _); [|done].
  by rewrite map_app, reverse_app, IH.
Qed.

Lemma valid_trades_sublist ts : valid_trades ts `sublist_of` ts.
Proof.
  induction ts as [|t ts IH] using rev_ind; [done|].
  rewrite valid_trades_snoc. destruct (is_keep _).
  - by apply sublist_app.
  - by apply sublist_inserts_r.
Qed.

Lemma valid_trades_survive ts t : t ∈ valid_trades ts → survives t = true.
Proof.
  induction ts as [|x ts IH] using rev_ind.
  - by intros ?%elem_of_nil.
  - rewrite valid_trades_snoc.
    destruct (is_keep _) eqn:Hk; [|done].
    intros [?|Hx%list_elem_of_singleton]%elem_of_app; [auto|subst x].
    destruct (decide_trade (seen ts) t) eqn:Hd; try discriminate.
    by apply decide_trade_keep in Hd as [? _].
Qed.

Lemma valid_trades_prefix pre post :
  valid_trades pre `prefix_of` valid_trades (pre ++ post).
Proof.
  induction post as [|t post IH] using rev_ind.
  - by rewrite app_nil_r.
  - rewrite app_assoc, valid_trades_snoc. destruct (is_keep _); [|done].
    by apply prefix_app_r.
Qed.

Lemma key_in_seen ts k :
  key_in k (seen ts) = true ↔
  ∃ u, u ∈ valid_trades ts ∧ key_eq (trade_key u) k = true.
Proof.
  unfold key_in. rewrite seen_valid_trades, existsb_exists. split.
  - intros (k' & Hin & Heq).
    rewrite <- list_elem_of_In, elem_of_reverse, list_elem_of_fmap in Hin.
    destruct Hin as (u & -> & Hu). by exists u.
  - intros (u & Hu & Heq). exists (trade_key u). split; [|done].
    rewrite <- list_elem_of_In, elem_of_reverse, list_elem_of_fmap. by exists u.
Qed.

(** A record that passed the first two tests is in the output or has
    the key of an earlier record of the output. *)
Lemma survivor_represented ts u k :
  u ∈ ts → survives u = true → key_eq (trade_key u) k = true →
  ∃ v, v ∈ valid_trades ts ∧ key_eq (trade_key v) k = true.
Proof.
  induction ts as [|x ts IH] using rev_ind.
  - by intros ?%elem_of_nil.
  - intros Hin Hs Hk. rewrite valid_trades_snoc.
    apply elem_of_app in Hin as [Hin|Hx%list_elem_of_singleton].
    2: subst x.
    + destruct (IH Hin Hs Hk) as (v & Hv & Hvk).
      exists v. split; [|done].
      destruct (is_keep _); [apply elem_of_app|]; auto.
    + rewrite decide_trade_survives by done.
      destruct (key_in _ _) eqn:Hseen; simpl.
      * apply key_in_seen in Hseen as (v & Hv & Hvu).
        exists v. split; [done|by eapply key_eq_trans].
      * exists u. split; [|done]. apply elem_of_app. right.
        by apply list_elem_of_singleton.
Qed.

(** The membership test of the loop, in terms of the input alone. *)
Lemma key_in_seen_before pre t :
  key_in (trade_key t) (seen pre) = true ↔ key_seen_before pre t.
Proof.
  rewrite key_in_seen. unfold key_seen_before. split.
  - intros (u & Hu & Heq). exists u. split_and!; [|by eapply valid_trades_survive|done].
    eapply elem_of_sublist; [done|apply valid_trades_sublist].
  - intros (u & Hu & Hs & Heq). by eapply survivor_represented.
Qed.

Lemma outcomes_from_app st l1 l2 :
  outcomes_from st (l1 ++ l2)
  = outcomes_from st l1 ++ outcomes_from (fold_left loop_body l1 st) l2.
Proof.
  revert st. induction l1 as [|t l1 IH]; intros st; simpl; [done|].
  by rewrite IH.
Qed.

Lemma outcomes_from_length st ts : length (outcomes_from st ts) = length ts.
Proof. revert st. induction ts; intros; simpl; auto. Qed.

Lemma outcomes_length ts : length (outcomes ts) = length ts.
Proof. apply outcomes_from_length. Qed.

Lemma outcomes_snoc ts t :
  outcomes (ts ++ [t]) = outcomes ts ++ [decide_trade (seen ts) t].
Proof. unfold outcomes. by rewrite outcomes_from_app. Qed.

(** The outcome of the iteration on [t], after the iterations on [pre]. *)
Lemma outcomes_lookup pre t post :
  outcomes (pre ++ t :: post) !! length pre = Some (decide_trade (seen pre) t).
Proof.
  unfold outcomes. rewrite outcomes_from_app.
  rewrite lookup_app_r by (rewrite outcomes_from_length; lia).
  rewrite outcomes_from_length, Nat.sub_diag. done.
Qed.

Lemma valid_trades_kept_by ts : valid_trades ts = kept_by ts (outcomes ts).
Proof.
  induction ts as [|t ts IH] using rev_ind; [done|].
  rewrite valid_trades_snoc, outcomes_snoc. unfold kept_by in *.
  rewrite zip_with_app by (by rewrite outcomes_length).
  rewrite List.filter_app, map_app, <- IH. simpl.
  destruct (is_keep _); simpl; by rewrite ?app_nil_r.
Qed.

Lemma valid_trades_keys_distinct ts : keys_distinct (valid_trades ts).
Proof.
  induction ts as [|t ts IH] using rev_ind.
  - intros i j u v _ Hi. change (valid_trades []) with (@nil trade) in Hi.
    by rewrite lookup_nil in Hi.
  - rewrite valid_trades_snoc.
    destruct (decide_trade (seen ts) t) eqn:Hd; simpl; try done.
    apply decide_trade_keep in Hd as [_ Hfresh].
    intros i j u v Hij Hi Hj.
    apply lookup_app_Some in Hj as [Hj|[Hlen Hj]].
    + rewrite lookup_app_l in Hi by (apply lookup_lt_Some in Hj; lia).
      by eapply IH.
    + apply list_lookup_singleton_Some in Hj as [Hj ->].
      rewrite lookup_app_l in Hi by lia.
      destruct (key_eq (trade_key u) (trade_key v)) eqn:Heq; [|done].
      rewrite <- Hfresh. symmetry. apply key_in_seen.
      exists u. split; [|done]. by eapply list_elem_of_lookup_2.
Qed.

End FilterLoop.

(** ** Counting *)

Section Counting.
Implicit Types (t : trade) (ts : list trade).

Lemma count_records_filter p ts :
  length (List.filter p ts) = count_records p ts.
Proof. induction ts as [|t ts IH]; simpl; [done|]. destruct (p t); simpl; lia. Qed.

Lemma count_records_app p l1 l2 :
  count_records p (l1 ++ l2) = (count_records p l1 + count_records p l2)%nat.
Proof. induction l1; simpl; lia. Qed.

Lemma is_fake_not_outlier t : is_fake t = true → is_outlier t = false.
Proof. unfold is_fake, is_outlier, py_ne. by intros ->. Qed.

Lemma survives_alt t : survives t = negb (is_fake t) && negb (is_outlier t).
Proof.
  unfold survives, is_fake, is_outlier, py_ne.
  by destruct (py_eq _ _), (py_gt _ _).
Qed.

(** Every record is counted once: dropped by the first test, by the
    second, by the third, or kept. *)
Lemma original_count_split ts :
  length ts
  = (length (List.filter is_fake ts) + length (List.filter is_outlier ts)
     + length (valid_trades ts) + duplicates_dropped ts)%nat.
Proof.
  unfold duplicates_dropped.
  induction ts as [|t ts IH] using rev_ind; [done|].
  rewrite outcomes_snoc, valid_trades_snoc, !List.filter_app, !length_app.
  simpl. unfold is_fake, is_outlier, py_ne, decide_trade in *.
  destruct (py_eq _ _); simpl;
    [|destruct (py_gt _ _); simpl; [|destruct (key_in _ _); simpl]];
    rewrite ?length_app; simpl; lia.
Qed.

Lemma length_valid_trades ts :
  length (valid_trades ts) = length (List.filter is_keep (outcomes ts)).
Proof.
  induction ts as [|t ts IH] using rev_ind; [done|].
  rewrite outcomes_snoc, valid_trades_snoc, List.filter_app, length_app.
  simpl. destruct (is_keep _); rewrite ?length_app; simpl; lia.
Qed.

End Counting.

(** ** The run as a whole *)

Section Main.
Implicit Types (t : trade) (ts : list trade).

(** What is written, when something is written. *)
Lemma main_Ok_cleaned ts r c : main ts = Ok (r, c) → c = cleaned_log_of ts.
Proof.
  unfold main, cleaned_log_of.
  destruct (valid_trades ts); simpl; [congruence|].
  destruct (stats _); simpl; congruence.
Qed.

(** The test [if valid_trades:] is what keeps the divisions safe. *)
Lemma stats_nil : stats [] = Raise ZeroDivisionError.
Proof. reflexivity. Qed.

Lemma show_trade_reason t line :
  show_trade t = Ok line → Trade.reason t = Some (s_reason line).
Proof.
  unfold show_trade.
  destruct (format_f (Trade.entry t)); simpl; [|discriminate].
  destruct (format_f (Trade.exit t)); simpl; [|discriminate].
  destruct (format_f (Trade.pnl t)); simpl; [|discriminate].
  destruct (Trade.reason t); [|discriminate].
  intros [= <-]. done.
Qed.

Lemma mapM_show_trade_reason l lines t :
  mapM show_trade l = Ok lines → t ∈ l → is_Some (Trade.reason t).
Proof.
  revert lines. induction l as [|x l IH]; intros lines; simpl.
  - by intros _ ?%elem_of_nil.
  - destruct (show_trade x) as [line|] eqn:Hx; simpl; [|discriminate].
    destruct (mapM show_trade l) as [lines'|] eqn:Hl; simpl; [|discriminate].
    intros _ [->|Hin]%elem_of_cons; [|by eapply IH].
    apply show_trade_reason in Hx. by rewrite Hx.
Qed.

Lemma stats_Ok_sample l r :
  stats l = Ok r → mapM show_trade (take 10 l) = Ok (sample r).
Proof.
  unfold stats.
  repeat match goal with
  | |- mbind _ ?m = Ok _ → _ => destruct m; simpl; [|discriminate]
  end.
  by intros [= <-].
Qed.

(** A record without [reason] among the first ten of the output stops
    the run before anything is written. *)
Lemma main_missing_reason ts t :
  t ∈ take 10 (valid_trades ts) → Trade.reason t = None →
  ∀ out, main ts ≠ Ok out.
Proof.
  intros Hin Hnone [r c]. unfold main.
  destruct (valid_trades ts) as [|x l] eqn:Hv.
  - rewrite take_nil in Hin. by apply elem_of_nil in Hin.
  - destruct (stats (x :: l)) as [rep|] eqn:Hs; simpl; [|discriminate].
    apply stats_Ok_sample in Hs.
    eapply mapM_show_trade_reason in Hs as [? ?]; [|done]. congruence.
Qed.

(** The count of a reason in the breakdown: the number of records with
    that reason, ["unknown"] standing for an absent one. *)
Lemma reason_breakdown_lookup l r :
  reason_breakdown l !! r
  = match count_records (has_reason r) l with
    | O => None
    | n => Some n
    end.
Proof.
  unfold reason_breakdown.
  induction l as [|t l IH] using rev_ind; [done|].
  rewrite fold_left_app, count_records_app. simpl.
  unfold count_reason at 1, has_reason at 2.
  destruct (String.eqb_spec (default "unknown" (Trade.reason t)) r) as [->|Hne].
  - rewrite lookup_insert_eq, IH.
    destruct (count_records _ l); simpl; f_equal; lia.
  - rewrite lookup_insert_ne, IH by done.
    by rewrite Nat.add_0_r.
Qed.

End Main.

(** ** Conversion of an [int] to a [float] *)

(** Rounding a positive integer to 53 bits never gives zero; so the
    [float] of a length that is not zero is not zero. *)

Section IntToFloat.

Lemma Zdigits2_pos m : 0 < m → 0 < Zdigits2 m.
Proof. destruct m; simpl; lia. Qed.

Lemma shr_1_digits mrs :
  0 <= shr_m mrs →
  0 <= shr_m (shr_1 mrs) ∧
  Zdigits2 (shr_m (shr_1 mrs)) = Z.max 0 (Zdigits2 (shr_m mrs) - 1).
Proof.
  destruct mrs as [m r s]. simpl. intros Hm.
  destruct m as [|[p|p|]|p]; simpl; try lia.
Qed.

Lemma iter_shr_1_digits k mrs :
  0 <= shr_m mrs →
  0 <= shr_m (SpecFloat.iter_pos shr_1 k mrs) ∧
  Zdigits2 (shr_m (SpecFloat.iter_pos shr_1 k mrs))
  = Z.max 0 (Zdigits2 (shr_m mrs) - Zpos k).
Proof.
  revert mrs. induction k as [k IH|k IH|]; intros mrs Hm; simpl.
  - destruct (shr_1_digits mrs Hm) as [H1 E1].
    destruct (IH _ H1) as [H2 E2]. destruct (IH _ H2) as [H3 E3].
    split; [done|]. rewrite E3, E2, E1. lia.
  - destruct (IH _ Hm) as [H2 E2]. destruct (IH _ H2) as [H3 E3].
    split; [done|]. rewrite E3, E2. lia.
  - apply shr_1_digits, Hm.
Qed.

Lemma shr_positive m r s e n :
  0 < m → n < Zdigits2 m →
  0 < shr_m (fst (shr (Build_shr_record m r s) e n)).
Proof.
  intros Hm Hn. unfold shr. destruct n as [|k|k]; simpl; try done.
  destruct (iter_shr_1_digits k (Build_shr_record m r s)) as [H E]; [simpl; lia|].
  simpl in E.
  destruct (Z.eq_dec (shr_m (SpecFloat.iter_pos shr_1 k (Build_shr_record m r s))) 0)
    as [Hz|Hz]; [|lia].
  rewrite Hz in E. simpl in E. lia.
Qed.

Lemma shr_exponent mrs e n : e <= snd (shr mrs e n).
Proof. unfold shr. destruct n; simpl; lia. Qed.

Lemma shr_fexp_positive m e l :
  0 < m → emin prec emax < e →
  0 < shr_m (fst (shr_fexp prec emax m e l))
  ∧ e <= snd (shr_fexp prec emax m e l).
Proof.
  intros Hm He. unfold shr_fexp. split; [|apply shr_exponent].
  pose proof (Zdigits2_pos m Hm).
  destruct l as [|[]]; simpl; apply shr_positive; try done;
    unfold fexp, emin, prec, emax in *; lia.
Qed.

Lemma round_nearest_even_ge m l : m <= round_nearest_even m l.
Proof. destruct l as [|[]]; simpl; try lia. destruct (Z.even m); lia. Qed.

Lemma binary_round_aux_nonzero s m e l :
  0 < m → emin prec emax < e →
  float_is_zero (binary_round_aux prec emax s m e l) = false.
Proof.
  intros Hm He. unfold binary_round_aux.
  destruct (shr_fexp_positive m e l Hm He) as [H1 E1].
  destruct (shr_fexp prec emax m e l) as [mrs' e']. simpl in H1, E1.
  pose proof (round_nearest_even_ge (shr_m mrs') (loc_of_shr_record mrs')) as Hr.
  destruct (shr_fexp_positive (round_nearest_even (shr_m mrs') (loc_of_shr_record mrs'))
              e' loc_Exact) as [H2 E2]; [lia..|].
  destruct (shr_fexp prec emax _ e' loc_Exact) as [mrs'' e'']. simpl in H2, E2.
  destruct (shr_m mrs''); try lia. by destruct (_ <=? _).
Qed.

Lemma int_to_float_nonzero z f :
  z ≠ 0 → int_to_float z = Ok f → float_is_zero f = false.
Proof.
  intros Hz. unfold int_to_float.
  assert (float_is_zero (binary_normalize prec emax z 0 false) = false) as Hnz.
  { assert (∀ s p, float_is_zero (binary_round prec emax s p 0) = false) as Hp.
    { intros s p. unfold binary_round.
      destruct (shl_align p 0 _) as [mz ez] eqn:Ha.
      apply binary_round_aux_nonzero; [lia|].
      unfold shl_align, fexp in Ha.
      assert (1 <= Zpos (digits2_pos p)) by lia.
      destruct (_ - 0) eqn:Hd; injection Ha as <- <-; unfold emin, prec, emax in *; lia. }
    destruct z; [done|apply Hp..]. }
  destruct (binary_normalize prec emax z 0 false); try discriminate; by intros [= <-].
Qed.

End IntToFloat.

(** ** The exceptions of a run *)

Section Exceptions.

Lemma int_to_float_raise z e : int_to_float z = Raise e → e = OverflowError.
Proof.
  unfold int_to_float. destruct (binary_normalize _ _ _ _ _); congruence.
Qed.

Lemma to_float_raise x e : to_float x = Raise e → e = OverflowError.
Proof. destruct x; simpl; [apply int_to_float_raise|discriminate]. Qed.

Ltac raise_cases :=
  repeat match goal with
  | |- context [to_float ?x] =>
      let E := fresh "E" in
      destruct (to_float x) eqn:E; simpl;
      [|apply to_float_raise in E; congruence]
  | |- context [int_to_float ?z] =>
      let E := fresh "E" in
      destruct (int_to_float z) eqn:E; simpl;
      [|apply int_to_float_raise in E; congruence]
  end.

Lemma py_add_raise x y e : py_add x y = Raise e → e = OverflowError.
Proof.
  unfold py_add. destruct x, y; simpl; try discriminate; raise_cases; discriminate.
Qed.

Lemma py_mul_raise x y e : py_mul x y = Raise e → e = OverflowError.
Proof.
  unfold py_mul. destruct x, y; simpl; try discriminate; raise_cases; discriminate.
Qed.

Lemma format_f_raise x e : format_f x = Raise e → e = OverflowError.
Proof. unfold format_f. raise_cases. discriminate. Qed.

Lemma py_sum_from_raise l acc e : py_sum_from acc l = Raise e → e = OverflowError.
Proof.
  revert acc. induction l as [|x l IH]; intros acc; simpl; [discriminate|].
  destruct (py_add acc x) eqn:E; simpl; [apply IH|].
  apply py_add_raise in E. congruence.
Qed.

(** Division by a length that is not zero. *)
Lemma py_truediv_len_raise x n e :
  0 < n → py_truediv x (PyInt n) = Raise e → e = OverflowError.
Proof.
  intros Hn. unfold py_truediv. destruct x as [a|f].
  - destruct (Z.eqb_spec n 0); [lia|].
    destruct (nearest_double _ _ _); congruence.
  - simpl. destruct (int_to_float n) as [b|] eqn:E; simpl.
    + rewrite (int_to_float_nonzero n b) by (done || lia). discriminate.
    + apply int_to_float_raise in E. congruence.
Qed.

Lemma show_trade_raise t e :
  show_trade t = Raise e → e = OverflowError ∨ e = KeyError "reason".
Proof.
  unfold show_trade.
  repeat match goal with
  | |- context [format_f ?x] =>
      let E := fresh "E" in
      destruct (format_f x) eqn:E; simpl;
      [|apply format_f_raise in E; left; congruence]
  end.
  destruct (Trade.reason t); [discriminate|]. right. congruence.
Qed.

Lemma mapM_show_trade_raise l e :
  mapM show_trade l = Raise e → e = OverflowError ∨ e = KeyError "reason".
Proof.
  induction l as [|t l IH]; simpl; [discriminate|].
  destruct (show_trade t) eqn:E; simpl.
  - destruct (mapM show_trade l); simpl; [discriminate|]. intros [= <-]. by apply IH.
  - intros [= <-]. by apply show_trade_raise in E.
Qed.

Lemma bind_Ok {A B} (f : A → result B) a : (Ok a ≫= f) = f a.
Proof. reflexivity. Qed.

Lemma bind_Raise {A B} (f : A → result B) e : (Raise e ≫= f) = Raise e.
Proof. reflexivity. Qed.

Lemma stats_raise t l e :
  stats (t :: l) = Raise e → e = OverflowError ∨ e = KeyError "reason".
Proof.
  assert (0 < Z.of_nat (length (t :: l))) as Hlen by (simpl; lia).
  unfold stats, py_len, py_sum.
  repeat match goal with
  | |- mbind _ ?m = Raise _ → _ =>
      let E := fresh "E" in
      destruct m eqn:E;
      [rewrite bind_Ok
      |rewrite bind_Raise; intros [= <-];
       first [by apply mapM_show_trade_raise in E
             |left;
              eauto using py_sum_from_raise, py_mul_raise, format_f_raise,
                py_truediv_len_raise]]
  end.
  discriminate.
Qed.

(** The run raises nothing but OverflowError and the KeyError of the
    sample; in particular it never divides by zero. *)
Lemma main_raise ts e :
  main ts = Raise e → e = OverflowError ∨ e = KeyError "reason".
Proof.
  unfold main. destruct (valid_trades ts) as [|t l]; simpl; [discriminate|].
  destruct (stats (t :: l)) eqn:E; simpl; [discriminate|].
  intros [= <-]. by apply stats_raise in E.
Qed.

Lemma main_no_zero_division ts : main ts ≠ Raise ZeroDivisionError.
Proof. intros [?|?]%main_raise; discriminate. Qed.

End Exceptions.

(** ** Statements about the script *)

Section Claims.
Implicit Types (t u v : trade) (ts pre post : list trade).

Lemma filter_loop_idem ts : filter_loop (valid_trades ts) = filter_loop ts.
Proof.
  induction ts as [|t ts IH] using rev_ind; [done|].
  rewrite valid_trades_snoc.
  destruct (decide_trade (seen ts) t) eqn:Hd; simpl;
    rewrite (filter_loop_snoc ts), (filter_loop_eta ts); simpl; rewrite Hd;
    rewrite ?filter_loop_snoc, IH, <- ?filter_loop_eta; try done.
  rewrite filter_loop_eta. simpl. by rewrite Hd.
Qed.

Lemma valid_trades_not_fake ts t :
  t ∈ valid_trades ts → py_eq (Trade.entry t) (Trade.exit t) = false.
Proof.
  intros Hs%valid_trades_survive. unfold survives in Hs.
  by destruct (py_eq _ _).
Qed.

Lemma valid_trades_not_outlier ts t :
  t ∈ valid_trades ts → py_gt (py_abs (Trade.pnl t)) (PyInt 50) = false.
Proof.
  intros Hs%valid_trades_survive. unfold survives in Hs.
  destruct (py_gt _ _); [|done]. by rewrite andb_false_r in Hs.
Qed.

(** Unless its P&L is NaN, a record of the output has [abs(pnl) <= 50]. *)
Lemma valid_trades_pnl_le_50 ts t :
  t ∈ valid_trades ts → is_nan (Trade.pnl t) = false →
  py_le (py_abs (Trade.pnl t)) (PyInt 50) = true.
Proof.
  intros Hin Hnan. rewrite py_le_not_gt by (by rewrite ?is_nan_abs).
  by erewrite valid_trades_not_outlier.
Qed.

(** Two records with equal keys fare alike at the first test: a record
    that passes it shares its key with no record that failed it. *)
Lemma key_eq_fake u t :
  key_eq (trade_key u) (trade_key t) = true → is_fake u = is_fake t.
Proof.
  unfold key_eq, trade_key, is_fake. rewrite !andb_true_iff.
  intros [[[_ He] Hx] _]. by apply same_or_eq_fake.
Qed.

Lemma valid_trades_kept pre t post :
  decide_trade (seen pre) t = Keep →
  ∃ rest, valid_trades (pre ++ t :: post) = valid_trades pre ++ t :: rest.
Proof.
  intros Hd.
  destruct (valid_trades_prefix (pre ++ [t]) post) as [rest Hrest].
  rewrite <- app_assoc in Hrest. simpl in Hrest.
  rewrite valid_trades_snoc, Hd in Hrest. simpl in Hrest.
  exists rest. by rewrite Hrest, <- app_assoc.
Qed.

End Claims.

(** ** The key *)

Section Key.

Lemma iter_shr_1_nonneg k mrs :
  0 <= shr_m mrs → 0 <= shr_m (SpecFloat.iter_pos shr_1 k mrs).
Proof. intros H. by apply iter_shr_1_digits. Qed.

Lemma shr_fexp_nonneg m e l :
  0 <= m → 0 <= shr_m (fst (shr_fexp prec emax m e l)).
Proof.
  intros Hm. unfold shr_fexp, shr.
  destruct (fexp prec emax (Zdigits2 m + e) - e) as [|k|k]; simpl;
    try (by destruct l as [|[]]).
  apply iter_shr_1_nonneg. by destruct l as [|[]].
Qed.

Lemma binary_round_aux_not_nan s m e l :
  0 <= m → binary_round_aux prec emax s m e l ≠ S754_nan.
Proof.
  intros Hm. unfold binary_round_aux.
  pose proof (shr_fexp_nonneg m e l Hm) as H1.
  destruct (shr_fexp prec emax m e l) as [mrs' e']. simpl in H1.
  pose proof (round_nearest_even_ge (shr_m mrs') (loc_of_shr_record mrs')) as Hr.
  pose proof (shr_fexp_nonneg (round_nearest_even (shr_m mrs') (loc_of_shr_record mrs'))
                e' loc_Exact) as H2.
  destruct (shr_fexp prec emax _ e' loc_Exact) as [mrs'' e'']. simpl in H2.
  destruct (shr_m mrs''); try done; [by destruct (_ <=? _)|lia].
Qed.

Lemma div_core_nonneg a b :
  0 <= a → 0 <= (fst (fst (SFdiv_core_binary prec emax a 0 (Zpos b) 0))).
Proof.
  intros Ha. unfold SFdiv_core_binary.
  match goal with
  | |- context [Z.div_eucl ?x ?y] =>
      assert (0 <= x) as Hx;
      [|pose proof (Z.div_pos x y Hx) as Hq;
        assert (Z.div_eucl x y = (x / y, x mod y)) as ->
          by (unfold Z.div, Z.modulo; by destruct (Z.div_eucl x y))]
  end.
  - match goal with |- 0 <= match ?s with _ => _ end => destruct s end;
      try lia. by apply Z.shiftl_nonneg.
  - simpl. apply Hq. lia.
Qed.

Lemma nearest_double_not_nan s n d : nearest_double s n d ≠ S754_nan.
Proof.
  unfold nearest_double. destruct n as [|p|p]; [done|..].
  - pose proof (div_core_nonneg (Z.abs (Zpos p)) d) as H.
    destruct (SFdiv_core_binary _ _ _ _ _ _) as [[q e] l].
    apply binary_round_aux_not_nan, H. lia.
  - pose proof (div_core_nonneg (Z.abs (Zneg p)) d) as H.
    destruct (SFdiv_core_binary _ _ _ _ _ _) as [[q e] l].
    apply binary_round_aux_not_nan, H. lia.
Qed.

Lemma py_round4_nan x : is_nan (py_round4 x) = is_nan x.
Proof.
  destruct x as [z|[s|s| |s m e]]; try done. simpl.
  pose proof (nearest_double_not_nan s
    (round_half_even (Qmult (dyadic (Zpos m) e) (inject_Z 10000))) 10000) as H.
  by destruct (nearest_double _ _ _).
Qed.

Lemma py_eq_refl x : is_nan x = false → py_eq x x = true.
Proof.
  intros Hx. apply py_eq_compare. unfold py_compare.
  destruct x as [z|[s|s| |s m e]]; simpl in *; try done;
    try (by destruct s); f_equal; by apply Qeq_alt.
Qed.

Lemma same_or_eq_refl x : same_or_eq x x = true.
Proof.
  unfold same_or_eq. destruct (is_nan x) eqn:Hx; [done|]. by rewrite py_eq_refl.
Qed.

Lemma same_key_key_eq u t : same_key u t = key_eq (trade_key u) (trade_key t).
Proof. reflexivity. Qed.

Lemma same_key_refl t : is_nan (Trade.pnl t) = false → same_key t t = true.
Proof.
  intros Hn. unfold same_key.
  rewrite String.eqb_refl, !same_or_eq_refl, py_eq_refl; [done|].
  by rewrite py_round4_nan.
Qed.

End Key.

(** C1.  Two records have the same key when their pairs are the same
    string, their entries are equal, their exits are equal and their P&Ls
    rounded to four decimals are equal ([same_key], with Python's
    comparisons: an [int] equals the [float] of the same value, and a NaN
    rounded P&L equals nothing).  Among the records that pass the first two
    tests, the iteration on a record ends at the [append] if and only if no
    earlier such record has the same key; a record dropped for its key has
    the same key as an earlier record of the output; the output is made of
    the records of the iterations that ended at the [append]; no two records
    of the output have the same key, and, unless the P&L is NaN, no two have
    the same tuple (pair, entry, exit, round(pnl, 4)) either. *)
Theorem C1_dedup_keeps_first ts :
  (∀ pre t post, ts = pre ++ t :: post → survives t = true →
     (outcomes ts !! length pre = Some Keep ↔
      ∀ u, u ∈ pre → survives u = true → same_key u t = false))
  ∧ (∀ pre t post u, ts = pre ++ t :: post → survives t = true →
       u ∈ pre → survives u = true → same_key u t = true →
       ∃ v, v ∈ valid_trades pre ∧ same_key v t = true)
  ∧ valid_trades ts = kept_by ts (outcomes ts)
  ∧ (∀ i j u v, (i < j)%nat →
       valid_trades ts !! i = Some u → valid_trades ts !! j = Some v →
       same_key u v = false
       ∧ (is_nan (Trade.pnl u) = false →
          (Trade.pair u, Trade.entry u, Trade.exit u, py_round4 (Trade.pnl u))
          ≠ (Trade.pair v, Trade.entry v, Trade.exit v, py_round4 (Trade.pnl v)))).
Proof.
  split_and!.
  - intros pre t post -> Hs.
    rewrite outcomes_lookup, decide_trade_survives by done.
    destruct (key_in (trade_key t) (seen pre)) eqn:Hin.
    + apply key_in_seen_before in Hin as (u & Hu & Hsu & Heq).
      split; [done|]. intros Hall.
      rewrite <- same_key_key_eq, (Hall u Hu Hsu) in Heq. discriminate.
    + split; [|done]. intros _ u Hu Hsu.
      rewrite same_key_key_eq.
      destruct (key_eq (trade_key u) (trade_key t)) eqn:Heq; [|done].
      rewrite <- Hin. symmetry. apply key_in_seen_before. by exists u.
  - intros pre t post u _ _ Hu Hsu Heq.
    assert (key_seen_before pre t) as Hseen by (by exists u).
    by apply key_in_seen_before, key_in_seen in Hseen.
  - apply valid_trades_kept_by.
  - intros i j u v Hij Hi Hj.
    pose proof (valid_trades_keys_distinct ts i j u v Hij Hi Hj) as Hd.
    split; [done|]. intros Hn [= Hp He Hx Hr].
    rewrite <- same_key_key_eq in Hd. unfold same_key in Hd.
    rewrite <- Hp, <- He, <- Hx, <- Hr in Hd.
    change (same_key u u = false) in Hd. by rewrite same_key_refl in Hd.
Qed.

Lemma C1_dedup_keeps_first_witness :
  outcomes five_keys !! 1%nat = Some Keep
  ∧ outcomes five_keys !! 2%nat = Some Keep
  ∧ outcomes five_keys !! 3%nat ≠ Some Keep
  ∧ outcomes five_keys !! 4%nat ≠ Some Keep.
Proof.
  destruct (C1_dedup_keeps_first five_keys) as (H & _).
  assert (survives sol_4dp = true) as S1 by (vm_compute; reflexivity).
  assert (survives eth_4dp = true) as S2 by (vm_compute; reflexivity).
  assert (survives sol_4dp_next = true) as S3 by (vm_compute; reflexivity).
  assert (survives sol_5dp = true) as S4 by (vm_compute; reflexivity).
  assert (survives sol_5dp_up = true) as S5 by (vm_compute; reflexivity).
  split_and!.
  - apply (H [sol_4dp] eth_4dp [sol_4dp_next; sol_5dp; sol_5dp_up] eq_refl S2).
    intros u ->%list_elem_of_singleton _. vm_compute. reflexivity.
  - apply (H [sol_4dp; eth_4dp] sol_4dp_next [sol_5dp; sol_5dp_up] eq_refl S3).
    intros u [->| ->%list_elem_of_singleton]%elem_of_cons _;
      vm_compute; reflexivity.
  - intros Hk.
    pose proof (proj1 (H [sol_4dp; eth_4dp; sol_4dp_next] sol_5dp [sol_5dp_up] eq_refl S4)
                  Hk sol_4dp
                  (list_elem_of_here _ _) S1) as Hf.
    vm_compute in Hf. discriminate Hf.
  - intros Hk.
    pose proof (proj1 (H [sol_4dp; eth_4dp; sol_4dp_next; sol_5dp] sol_5dp_up [] eq_refl S5)
                  Hk sol_4dp
                  (list_elem_of_here _ _) S1) as Hf.
    vm_compute in Hf. discriminate Hf.
Defined.

(** C3.  There is an input with duplicates for which removed_fake_trades +
    removed_outliers + total_trades differs from original_count; for every
    input, original_count exceeds that sum by the number of records dropped
    at the third test. *)
Theorem C3_accounting_gap :
  (∃ ts, let c := cleaned_log_of ts in
     (removed_fake_trades c + removed_outliers c + total_trades c)%nat
     ≠ original_count c
     ∧ (0 < duplicates_dropped ts)%nat)
  ∧ (∀ ts, let c := cleaned_log_of ts in
       original_count c
       = (removed_fake_trades c + removed_outliers c + total_trades c
          + duplicates_dropped ts)%nat).
Proof.
  split.
  - exists [sol; sol_float]. vm_compute. split; [discriminate|lia].
  - intros ts. simpl. apply original_count_split.
Qed.

(** C4.  The filter loop run on its own output returns that output. *)
Theorem C4_filter_idempotent ts :
  valid_trades (valid_trades ts) = valid_trades ts.
Proof. unfold valid_trades at 1 3. by rewrite filter_loop_idem. Qed.

(** C5.  removed_fake_trades is the number of records of the input with
    entry == exit, removed_outliers the number of those with entry != exit
    and abs(pnl) > 50; a record with entry == exit adds nothing to
    removed_outliers, whatever its P&L. *)
Theorem C5_removed_counts ts :
  removed_fake_trades (cleaned_log_of ts)
  = count_records (fun t => py_eq (Trade.entry t) (Trade.exit t)) ts
  ∧ removed_outliers (cleaned_log_of ts)
    = count_records
        (fun t => py_ne (Trade.entry t) (Trade.exit t)
                  && py_gt (py_abs (Trade.pnl t)) (PyInt 50)) ts
  ∧ (∀ pre t post, ts = pre ++ t :: post →
       py_eq (Trade.entry t) (Trade.exit t) = true →
       removed_outliers (cleaned_log_of ts)
       = removed_outliers (cleaned_log_of (pre ++ post))
       ∧ removed_fake_trades (cleaned_log_of ts)
         = S (removed_fake_trades (cleaned_log_of (pre ++ post)))).
Proof.
  split_and!.
  - apply count_records_filter.
  - apply count_records_filter.
  - intros pre t post -> Hfake. simpl.
    rewrite !count_records_filter, !count_records_app. simpl.
    rewrite (is_fake_not_outlier t Hfake).
    change (is_fake t) with (py_eq (Trade.entry t) (Trade.exit t)).
    rewrite Hfake. lia.
Qed.

Lemma C5_removed_counts_witness :
  removed_outliers (cleaned_log_of [sol; btc_fake; eth_outlier])
  = removed_outliers (cleaned_log_of [sol; eth_outlier])
  ∧ py_gt (py_abs (Trade.pnl btc_fake)) (PyInt 50) = true.
Proof.
  split; [|vm_compute; reflexivity].
  destruct (C5_removed_counts [sol; btc_fake; eth_outlier]) as (_ & _ & H).
  apply (H [sol] btc_fake [eth_outlier] eq_refl). vm_compute. reflexivity.
Defined.

(** C7.  The output is a subsequence of the input: the kept records, as
    they are, in the order of the input. *)
Theorem C7_output_is_subsequence ts :
  valid_trades ts `sublist_of` ts
  ∧ trades (cleaned_log_of ts) = valid_trades ts.
Proof. split; [apply valid_trades_sublist|done]. Qed.

(** C8.  When no record is kept, no statistic is computed, so that no
    division happens, and the cleaned log is produced with total_trades = 0
    and no trades. *)
Theorem C8_empty_result_skips_report ts :
  valid_trades ts = [] →
  main ts = Ok (None, cleaned_log_of ts)
  ∧ total_trades (cleaned_log_of ts) = 0%nat
  ∧ trades (cleaned_log_of ts) = [].
Proof.
  intros Hv. unfold main, cleaned_log_of. rewrite Hv. done.
Qed.

Lemma C8_empty_result_skips_report_witness :
  main [btc_fake; eth_outlier] = Ok (None, cleaned_log_of [btc_fake; eth_outlier])
  ∧ total_trades (cleaned_log_of [btc_fake; eth_outlier]) = 0%nat
  ∧ trades (cleaned_log_of [btc_fake; eth_outlier]) = [].
Proof. apply C8_empty_result_skips_report. vm_compute. reflexivity. Defined.

(** C9.  total_trades is the length of the trades written; this holds for
    the log of every run that writes one. *)
Theorem C9_total_trades_is_length ts :
  total_trades (cleaned_log_of ts) = length (trades (cleaned_log_of ts))
  ∧ (∀ r c, main ts = Ok (r, c) → total_trades c = length (trades c)).
Proof.
  split; [done|]. by intros r c ->%main_Ok_cleaned.
Qed.

Lemma C9_total_trades_is_length_witness :
  ∃ r c, main [sol; sol_float] = Ok (r, c) ∧ total_trades c = length (trades c).
Proof.
  destruct (main [sol; sol_float]) as [[r c]|] eqn:Hm.
  - exists r, c. split; [reflexivity|].
    destruct (C9_total_trades_is_length [sol; sol_float]) as [_ H].
    exact (H r c Hm).
  - vm_compute in Hm. discriminate Hm.
Defined.

(** C10.  Every key of [seen] is the key of a record that passed the first
    two tests; so a record that passes them, and whose key is only on
    earlier records that failed one of them, is kept. *)
Theorem C10_dropped_records_leave_no_key :
  (∀ ts k, k ∈ seen ts →
     ∃ u, u ∈ ts ∧ survives u = true ∧ k = trade_key u)
  ∧ (∀ pre t post, survives t = true →
       (∀ u, u ∈ pre → key_eq (trade_key u) (trade_key t) = true →
          survives u = false) →
       outcomes (pre ++ t :: post) !! length pre = Some Keep
       ∧ ∃ rest, valid_trades (pre ++ t :: post) = valid_trades pre ++ t :: rest).
Proof.
  split.
  - intros ts k. rewrite seen_valid_trades, elem_of_reverse, list_elem_of_fmap.
    intros (u & -> & Hu). exists u. split_and!; [|by eapply valid_trades_survive|done].
    eapply elem_of_sublist; [done|apply valid_trades_sublist].
  - intros pre t post Hs Hpre.
    assert (decide_trade (seen pre) t = Keep) as Hd.
    { apply decide_trade_keep. split; [done|].
      destruct (key_in _ _) eqn:Hin; [|done].
      apply key_in_seen_before in Hin as (u & Hu & Hsu & Heq).
      rewrite (Hpre u Hu Heq) in Hsu. discriminate. }
    split; [by rewrite outcomes_lookup, Hd|by apply valid_trades_kept].
Qed.

Lemma C10_dropped_records_leave_no_key_witness :
  key_eq (trade_key eth_outlier) (trade_key eth_fifty) = true
  ∧ survives eth_outlier = false
  ∧ outcomes [eth_outlier; eth_fifty] !! 1%nat = Some Keep.
Proof.
  split_and!; [vm_compute; reflexivity..|].
  destruct C10_dropped_records_leave_no_key as [_ H].
  refine (proj1 (H [eth_outlier] eth_fifty [] _ _)).
  - vm_compute. reflexivity.
  - intros u ->%list_elem_of_singleton _. vm_compute. reflexivity.
Defined.

(** C2, at a record without [reason]: the breakdown counts it under
    "unknown", and the sample then raises KeyError, so that the run ends
    without a report and without a cleaned log. *)
Theorem C2_missing_reason_raises :
  valid_trades [sol_no_reason] = [sol_no_reason]
  ∧ reason_breakdown (valid_trades [sol_no_reason]) !! "unknown" = Some 1%nat
  ∧ main [sol_no_reason] = Raise (KeyError "reason").
Proof. split_and!; vm_compute; reflexivity. Qed.

(** C6, at a record whose P&L is NaN: the record is kept and written, and
    [abs(pnl) <= 50] is false for it. *)
Theorem C6_nan_pnl_is_kept :
  valid_trades [nan_pnl] = [nan_pnl]
  ∧ (∃ r, main [nan_pnl] = Ok (Some r, cleaned_log_of [nan_pnl]))
  ∧ trades (cleaned_log_of [nan_pnl]) = [nan_pnl]
  ∧ py_gt (py_abs (Trade.pnl nan_pnl)) (PyInt 50) = false
  ∧ py_le (py_abs (Trade.pnl nan_pnl)) (PyInt 50) = false.
Proof.
  split_and!; try (vm_compute; reflexivity).
  destruct (main [nan_pnl]) as [[[r|] c]|] eqn:Hm.
  - exists r. apply main_Ok_cleaned in Hm as Hc. by rewrite Hc.
  - vm_compute in Hm. discriminate Hm.
  - vm_compute in Hm. discriminate Hm.
Qed.

(** ** The scenarios of section 8 of the specification *)

Example scenario_fake_trade :
  let c := cleaned_log_of [Trade.mk "BTC" (PyInt 10) (PyInt 10) (PyInt 0) None] in
  trades c = [] ∧ removed_fake_trades c = 1%nat.
Proof. vm_compute. done. Qed.

Example scenario_outlier :
  let c :=
    cleaned_log_of [Trade.mk "ETH" (PyInt 1) (json_float 11 10) (PyInt 60) None] in
  trades c = [] ∧ removed_outliers c = 1%nat.
Proof. vm_compute. done. Qed.

Example scenario_duplicate :
  valid_trades [sol; sol_float] = [sol].
Proof. vm_compute. done. Qed.

Example scenario_take_profit :
  match main [sol] with
  | Ok (Some r, c) =>
      trades c = [sol]
      ∧ wins r = 1%nat
      ∧ win_percent r = json_float 100 1
      ∧ total_pnl r = PyInt 10
      ∧ reasons r = {["take_profit" := 1%nat]}
  | _ => False
  end.
Proof. vm_compute. done. Qed.

(** * Further properties *)

(** ** The loop as a pipeline *)

Section Pipeline.
Implicit Types (t u : trade) (ts pre post : list trade).

Lemma loop_from_staged ts v s :
  fold_left loop_body ts (v, s)
  = (v ++ first_of_each_key s (List.filter pnl_reasonable (List.filter price_moved ts)),
     reverse (map trade_key
       (first_of_each_key s (List.filter pnl_reasonable (List.filter price_moved ts)))) ++ s).
Proof.
  revert v s. induction ts as [|t ts IH]; intros v s; simpl.
  - by rewrite app_nil_r.
  - unfold decide_trade.
    change (price_moved t) with (negb (py_eq (Trade.entry t) (Trade.exit t))).
    destruct (py_eq _ _); simpl; [apply IH|].
    change (pnl_reasonable t)
      with (negb (py_gt (py_abs (Trade.pnl t)) (PyInt 50))).
    destruct (py_gt _ _); simpl; [apply IH|].
    destruct (key_in _ _); simpl; [apply IH|].
    rewrite IH, <- app_assoc, reverse_cons, <- app_assoc. done.
Qed.

Lemma valid_trades_staged ts : valid_trades ts = staged_pipeline ts.
Proof.
  unfold valid_trades, filter_loop, staged_pipeline. by rewrite loop_from_staged.
Qed.

Lemma loop_body_dropped st t : survives t = false → loop_body st t = st.
Proof.
  destruct st as [v s]. unfold loop_body, decide_trade, survives.
  destruct (py_eq _ _); [done|]. destruct (py_gt _ _); [done|]. discriminate.
Qed.

Lemma key_seen_before_app l1 l2 t :
  key_seen_before (l1 ++ l2) t ↔ key_seen_before l1 t ∨ key_seen_before l2 t.
Proof.
  unfold key_seen_before. split.
  - intros (u & [Hu|Hu]%elem_of_app & H); [left|right]; by exists u.
  - intros [(u & Hu & H)|(u & Hu & H)]; exists u; (split; [|done]);
      apply elem_of_app; auto.
Qed.

Lemma key_in_seen_app l1 l2 t :
  key_in (trade_key t) (seen (l1 ++ l2))
  = key_in (trade_key t) (seen l1) || key_in (trade_key t) (seen l2).
Proof.
  apply eq_true_iff_eq.
  rewrite orb_true_iff, !key_in_seen_before. apply key_seen_before_app.
Qed.

Lemma loop_with_reason (g : trade → option string) ts v s :
  fold_left loop_body (map (fun t => with_reason (g t) t) ts)
    (map (fun t => with_reason (g t) t) v, s)
  = (map (fun t => with_reason (g t) t) (fst (fold_left loop_body ts (v, s))),
     snd (fold_left loop_body ts (v, s))).
Proof.
  revert v s. induction ts as [|t ts IH]; intros v s; simpl; [done|].
  change (decide_trade s (with_reason (g t) t)) with (decide_trade s t).
  destruct (decide_trade s t); try apply IH.
  change (trade_key (with_reason (g t) t)) with (trade_key t).
  rewrite <- IH. by rewrite map_app.
Qed.

Lemma same_members_cons k s s' :
  same_members s s' → same_members (k :: s) (k :: s').
Proof. intros H k'. simpl. by rewrite H. Qed.

Lemma same_members_swap k1 k2 s :
  same_members (k1 :: k2 :: s) (k2 :: k1 :: s).
Proof. intros k. simpl. by destruct (key_eq k1 k), (key_eq k2 k). Qed.

Lemma same_members_key_eq k1 k2 s :
  key_eq k1 k2 = true → same_members (k1 :: s) (k2 :: s).
Proof.
  intros H k. simpl. f_equal. apply eq_true_iff_eq. split; intros Hk.
  - apply key_eq_trans with k1; [by rewrite key_eq_sym|done].
  - by apply key_eq_trans with k2.
Qed.

Lemma first_of_each_key_same_members s s' l :
  same_members s s' → first_of_each_key s l = first_of_each_key s' l.
Proof.
  revert s s'. induction l as [|t l IH]; intros s s' H; simpl; [done|].
  rewrite <- (H (trade_key t)). destruct (key_in _ s); [by apply IH|].
  f_equal. by apply IH, same_members_cons.
Qed.

Lemma first_of_each_key_length_perm l l' :
  Permutation l l' →
  ∀ s, length (first_of_each_key s l) = length (first_of_each_key s l').
Proof.
  induction 1 as [|x l l' _ IH|x y l|l l' l'' _ IH1 _ IH2]; intros s.
  - done.
  - simpl. destruct (key_in _ s); simpl; by rewrite IH.
  - simpl. destruct (key_in (trade_key y) s) eqn:Hy,
      (key_in (trade_key x) s) eqn:Hx; simpl; rewrite ?Hx, ?Hy, ?orb_true_r;
      simpl; try done.
    rewrite !orb_false_r, (key_eq_sym (trade_key x)).
    destruct (key_eq (trade_key y) (trade_key x)) eqn:Hyx; simpl.
    + f_equal. f_equal. by apply first_of_each_key_same_members, same_members_key_eq.
    + do 3 f_equal. apply first_of_each_key_same_members, same_members_swap.
  - by rewrite IH1.
Qed.

Lemma filter_length_perm (f : trade → bool) l l' :
  Permutation l l' → length (List.filter f l) = length (List.filter f l').
Proof.
  induction 1 as [|x l l' _ IH|x y l|l l' l'' _ IH1 _ IH2]; simpl.
  - done.
  - destruct (f x); simpl; by rewrite IH.
  - by destruct (f x), (f y).
  - by rewrite IH1.
Qed.

Lemma filter_perm (f : trade → bool) l l' :
  Permutation l l' → Permutation (List.filter f l) (List.filter f l').
Proof.
  induction 1 as [|x l l' _ IH|x y l|l l' l'' _ IH1 _ IH2]; simpl.
  - done.
  - destruct (f x); [by constructor|done].
  - destruct (f x), (f y); try done. apply perm_swap.
  - by etransitivity.
Qed.

Lemma filter_none {A} (f : A → bool) (l : list A) :
  (∀ x, x ∈ l → f x = false) → List.filter f l = [].
Proof.
  induction l as [|x l IH]; intros H; simpl; [done|].
  rewrite H by (by left). apply IH. intros y Hy. apply H. by right.
Qed.

Lemma keys_distinct_snoc l t :
  keys_distinct (l ++ [t]) →
  keys_distinct l ∧ ∀ u, u ∈ l → key_eq (trade_key u) (trade_key t) = false.
Proof.
  intros H. split.
  - intros i j u v Hij Hi Hj. apply (H i j); [done|..]; by apply lookup_app_l_Some.
  - intros u (i & Hi)%list_elem_of_lookup_1.
    apply (H i (length l)).
    + by apply lookup_lt_Some in Hi.
    + by apply lookup_app_l_Some.
    + by rewrite lookup_app_r, Nat.sub_diag.
Qed.

End Pipeline.

(** X1.  The single loop computes what the three criteria of lines 23-26
    give when applied one after the other: drop the records whose price did
    not move, then those with a P&L above 50 in absolute value, then every
    record whose key is on an earlier one that is left. *)
Theorem X1_single_loop_is_staged_pipeline ts :
  valid_trades ts = staged_pipeline ts
  ∧ seen ts = reverse (map trade_key (staged_pipeline ts)).
Proof.
  split; [apply valid_trades_staged|].
  by rewrite seen_valid_trades, valid_trades_staged.
Qed.

(** X2.  A record that fails the first or the second test changes nothing:
    the output is the one of the input without it. *)
Theorem X2_failed_records_change_nothing pre t post :
  survives t = false →
  valid_trades (pre ++ t :: post) = valid_trades (pre ++ post).
Proof.
  intros Hs. unfold valid_trades, filter_loop.
  rewrite !fold_left_app. simpl. by rewrite loop_body_dropped.
Qed.

Lemma X2_failed_records_change_nothing_witness :
  valid_trades ([sol] ++ btc_fake :: [eth_fifty])
  = valid_trades ([sol] ++ [eth_fifty]).
Proof.
  apply X2_failed_records_change_nothing. vm_compute. reflexivity.
Defined.

(** X3.  Cleaning two lists put end to end: the output of the first,
    followed by the output of the second without the records whose key the
    first has kept. *)
Theorem X3_cleaning_a_concatenation l1 l2 :
  valid_trades (l1 ++ l2)
  = valid_trades l1
    ++ List.filter (fun t => negb (key_in (trade_key t) (seen l1))) (valid_trades l2).
Proof.
  induction l2 as [|t l2 IH] using rev_ind.
  - by rewrite !app_nil_r.
  - rewrite app_assoc, !valid_trades_snoc, IH.
    unfold decide_trade. rewrite key_in_seen_app.
    destruct (py_eq _ _); simpl; [done|].
    destruct (py_gt _ _); simpl; [done|].
    destruct (key_in (trade_key t) (seen l2)) eqn:H2; simpl.
    + by rewrite orb_true_r.
    + rewrite orb_false_r, List.filter_app. simpl.
      destruct (key_in (trade_key t) (seen l1)); simpl.
      * by rewrite app_nil_r.
      * by rewrite app_assoc.
Qed.

(** X4.  The [reason] of a record plays no part in the filter: with other
    reasons on the records, the same records are kept. *)
Theorem X4_reason_plays_no_part (g : trade → option string) ts :
  valid_trades (map (fun t => with_reason (g t) t) ts)
  = map (fun t => with_reason (g t) t) (valid_trades ts).
Proof.
  exact (f_equal fst (loop_with_reason g ts [] [])).
Qed.

(** X5.  The four counters of the cleaned log do not depend on the order
    of the input (which of two duplicates is kept does). *)
Theorem X5_counts_ignore_the_order ts ts' :
  Permutation ts ts' →
  total_trades (cleaned_log_of ts) = total_trades (cleaned_log_of ts')
  ∧ original_count (cleaned_log_of ts) = original_count (cleaned_log_of ts')
  ∧ removed_fake_trades (cleaned_log_of ts) = removed_fake_trades (cleaned_log_of ts')
  ∧ removed_outliers (cleaned_log_of ts) = removed_outliers (cleaned_log_of ts').
Proof.
  intros H. simpl. split_and!.
  - rewrite !valid_trades_staged. unfold staged_pipeline.
    by apply first_of_each_key_length_perm, filter_perm, filter_perm.
  - by apply Permutation_length.
  - by apply filter_length_perm.
  - by apply filter_length_perm.
Qed.

Lemma X5_counts_ignore_the_order_witness :
  total_trades (cleaned_log_of [sol; sol_float; btc_fake])
  = total_trades (cleaned_log_of [sol_float; sol; btc_fake]).
Proof.
  refine (proj1 (X5_counts_ignore_the_order _ _ _)). apply perm_swap.
Defined.

(** X6.  The loop returns its input unchanged exactly when every record
    passes the first two tests and no two records have equal keys. *)
Theorem X6_unchanged_iff_clean l :
  valid_trades l = l ↔ (∀ t, t ∈ l → survives t = true) ∧ keys_distinct l.
Proof.
  split.
  - intros H. split.
    + intros t Ht. apply (valid_trades_survive l). by rewrite H.
    + rewrite <- H. apply valid_trades_keys_distinct.
  - induction l as [|t l IH] using rev_ind; [done|].
    intros [Hs [Hd Hfresh]%keys_distinct_snoc].
    rewrite valid_trades_snoc.
    assert (valid_trades l = l) as Hl.
    { apply IH. split; [|done]. intros u Hu. apply Hs, elem_of_app. by left. }
    assert (decide_trade (seen l) t = Keep) as ->; [|by rewrite Hl].
    apply decide_trade_keep. split.
    + apply Hs, elem_of_app. right. by apply list_elem_of_singleton.
    + destruct (key_in _ _) eqn:Hin; [|done].
      apply key_in_seen in Hin as (u & Hu & Heq). rewrite Hl in Hu.
      by rewrite Hfresh in Heq.
Qed.

(** X7.  Cleaning a cleaned log again changes no trade and resets the
    counters: original_count becomes the former total_trades and both
    removed counts become 0. *)
Theorem X7_cleaning_a_cleaned_log ts :
  let c := cleaned_log_of ts in
  cleaned_log_of (trades c)
  = {| version := version c;
       total_trades := total_trades c;
       original_count := total_trades c;
       removed_fake_trades := 0;
       removed_outliers := 0;
       trades := trades c |}.
Proof.
  simpl. unfold cleaned_log_of, cleaned_data.
  assert (valid_trades (valid_trades ts) = valid_trades ts) as ->.
  { unfold valid_trades at 1 3. by rewrite filter_loop_idem. }
  rewrite !filter_none; [done|..]; intros t Ht.
  - unfold is_outlier. erewrite valid_trades_not_outlier by done.
    apply andb_false_r.
  - by eapply valid_trades_not_fake.
Qed.

(** ** The report *)

Section Report.
Implicit Types (t : trade) (ts l : list trade).

Lemma breakdown_total_fresh m r n :
  m !! r = None → breakdown_total (<[r := n]> m) = (n + breakdown_total m)%nat.
Proof.
  intros Hr. unfold breakdown_total.
  apply (map_fold_insert_L (fun _ n acc => (n + acc)%nat)); [|done].
  intros. lia.
Qed.

Lemma breakdown_total_insert m r n :
  (breakdown_total (<[r := n]> m) + default 0 (m !! r)
   = breakdown_total m + n)%nat.
Proof.
  destruct (m !! r) as [old|] eqn:Hr; simpl.
  - rewrite <- (insert_delete_eq m r n).
    rewrite <- (insert_delete_id m r old Hr) at 2.
    rewrite !breakdown_total_fresh by apply lookup_delete_eq. lia.
  - rewrite breakdown_total_fresh by done. lia.
Qed.

Lemma breakdown_total_reasons l :
  breakdown_total (reason_breakdown l) = length l.
Proof.
  unfold reason_breakdown.
  induction l as [|t l IH] using rev_ind; [done|].
  rewrite fold_left_app, length_app. simpl. unfold count_reason at 1.
  pose proof (breakdown_total_insert (fold_left count_reason l ∅)
    (default "unknown" (Trade.reason t))
    (default 0%nat (fold_left count_reason l ∅ !! default "unknown" (Trade.reason t)) + 1)%nat)
    as H.
  simpl. lia.
Qed.

(** mapM in the error monad: every element succeeded, in order. *)
Lemma mapM_show_trade_Ok l lines :
  mapM show_trade l = Ok lines →
  Forall2 (fun t line => show_trade t = Ok line) l lines.
Proof.
  revert lines. induction l as [|t l IH]; intros lines; simpl.
  - intros [= <-]. constructor.
  - destruct (show_trade t) as [line|] eqn:Ht; simpl; [|discriminate].
    destruct (mapM show_trade l) as [lines'|]; simpl; [|discriminate].
    intros [= <-]. constructor; auto.
Qed.

Lemma show_trade_Ok t line :
  show_trade t = Ok line →
  ∃ r, Trade.reason t = Some r ∧ line = line_of t r.
Proof.
  unfold show_trade.
  destruct (format_f (Trade.entry t)); simpl; [|discriminate].
  destruct (format_f (Trade.exit t)); simpl; [|discriminate].
  destruct (format_f (Trade.pnl t)); simpl; [|discriminate].
  destruct (Trade.reason t) as [r|]; [|discriminate].
  intros [= <-]. by exists r.
Qed.

Lemma py_sum_from_ints acc zs :
  py_sum_from (PyInt acc) (map PyInt zs) = Ok (PyInt (acc + int_total zs)).
Proof.
  revert acc. induction zs as [|z zs IH]; intros acc; simpl.
  - by rewrite Z.add_0_r.
  - rewrite IH. by rewrite Z.add_assoc.
Qed.

Lemma stats_Ok_total l r : stats l = Ok r → py_sum (map Trade.pnl l) = Ok (total_pnl r).
Proof.
  unfold stats.
  destruct (py_sum _) as [total|]; [rewrite bind_Ok|discriminate].
  repeat match goal with
  | |- mbind _ ?m = Ok _ → _ => destruct m; [rewrite bind_Ok|discriminate]
  end.
  by intros [= <-].
Qed.

Lemma int_not_outlier z :
  py_gt (py_abs (PyInt z)) (PyInt 50) = false → Z.abs z <= 50.
Proof.
  unfold py_gt, py_compare. simpl. unfold Qcompare. simpl.
  destruct (Z.compare_spec (Z.abs z * 1) (50 * 1)); try lia; discriminate.
Qed.

Lemma int_total_bound zs (b : Z) :
  Forall (fun z => Z.abs z <= b) zs → Z.abs (int_total zs) <= b * Z.of_nat (length zs).
Proof.
  induction 1 as [|z zs Hz _ IH]; simpl; [lia|].
  unfold int_total in *. simpl. lia.
Qed.

Lemma filter_map_length {A B} (g : A → B) (f : B → bool) (l : list A) :
  length (List.filter (fun x => f (g x)) l) = length (List.filter f (map g l)).
Proof. induction l as [|x l IH]; simpl; [done|]. destruct (f (g x)); simpl; lia. Qed.

Lemma stats_same_numbers l l' :
  map Trade.pnl l' = map Trade.pnl l → take 10 l' = take 10 l →
  stats l' = set_reasons (reason_breakdown l') <$> stats l.
Proof.
  intros Hp Ht. unfold stats, py_len.
  rewrite !(filter_map_length Trade.pnl (fun x => py_gt x (PyInt 0))).
  rewrite <- (length_map Trade.pnl l'), <- (length_map Trade.pnl l), Hp, Ht.
  repeat match goal with
  | |- mbind _ ?m = _ => destruct m; [rewrite !bind_Ok|done]
  end.
  done.
Qed.

Lemma mapM_show_trade_KeyError l k :
  mapM show_trade l = Raise (KeyError k) →
  k = "reason" ∧ ∃ t, t ∈ l ∧ Trade.reason t = None.
Proof.
  induction l as [|t l IH]; simpl; [discriminate|].
  destruct (show_trade t) as [line|e] eqn:Ht; simpl.
  - destruct (mapM show_trade l) as [lines|e]; simpl; [discriminate|].
    intros [= ->]. destruct (IH eq_refl) as (-> & u & Hu & Hr).
    split; [done|]. exists u. split; [by right|done].
  - intros [= ->]. unfold show_trade in Ht.
    repeat match type of Ht with
    | context [format_f ?x] =>
        let E := fresh "E" in
        destruct (format_f x) eqn:E; simpl in Ht;
        [|apply format_f_raise in E; congruence]
    end.
    destruct (Trade.reason t) eqn:Hr; [discriminate|].
    injection Ht as <-. split; [done|]. exists t. split; [by left|done].
Qed.

Lemma stats_raise_cause t l e :
  stats (t :: l) = Raise e →
  e = OverflowError ∨ mapM show_trade (take 10 (t :: l)) = Raise e.
Proof.
  assert (0 < Z.of_nat (length (t :: l))) as Hlen by (simpl; lia).
  unfold stats, py_len, py_sum.
  repeat match goal with
  | |- mbind _ ?m = Raise _ → _ =>
      let E := fresh "E" in
      destruct m eqn:E;
      [rewrite bind_Ok
      |rewrite bind_Raise; intros [= <-];
       first [by right
             |left;
              eauto using py_sum_from_raise, py_mul_raise, format_f_raise,
                py_truediv_len_raise]]
  end.
  discriminate.
Qed.

End Report.

(** X8.  When the report is produced, the sample has the first ten kept
    records, or all of them when there are fewer, in order, each with its
    own pair, prices, P&L and reason. *)
Theorem X8_sample_is_first_ten l r :
  stats l = Ok r →
  length (sample r) = Nat.min 10 (length l)
  ∧ ∀ i t, (i < 10)%nat → l !! i = Some t →
      ∃ reason, Trade.reason t = Some reason
                ∧ sample r !! i = Some (line_of t reason).
Proof.
  intros Hs%stats_Ok_sample%mapM_show_trade_Ok. split.
  - apply Forall2_length in Hs. rewrite <- Hs, length_take. lia.
  - intros i t Hi Ht.
    assert (take 10 l !! i = Some t) as Ht' by (by rewrite lookup_take_lt).
    destruct (Forall2_lookup_l _ _ _ _ _ Hs Ht') as (line & Hline & Hshow).
    apply show_trade_Ok in Hshow as (reason & Hr & ->). eauto.
Qed.

Lemma X8_sample_is_first_ten_witness :
  ∃ r, stats [sol; eth_fifty] = Ok r ∧ length (sample r) = 2%nat.
Proof.
  destruct (stats [sol; eth_fifty]) as [r|] eqn:Hs.
  - exists r. split; [reflexivity|].
    exact (proj1 (X8_sample_is_first_ten [sol; eth_fifty] r Hs)).
  - vm_compute in Hs. discriminate Hs.
Defined.

(** X9.  The counts of the breakdown add up to the number of records, and
    the count of a reason is the number of records with that reason,
    "unknown" standing for an absent one; a reason no record has is not in
    the breakdown. *)
Theorem X9_reason_counts_add_up l :
  breakdown_total (reason_breakdown l) = length l
  ∧ ∀ r, reason_breakdown l !! r
         = match count_records (has_reason r) l with
           | O => None
           | n => Some n
           end.
Proof. split; [apply breakdown_total_reasons|apply reason_breakdown_lookup]. Qed.

(** X10.  Only the first ten records need a reason: when the report is
    produced, it is also produced, with the same numbers and the same
    sample, after the reasons of all later records are removed. *)
Theorem X10_reasons_matter_in_first_ten l r :
  stats l = Ok r →
  stats (forget_reasons_from 10 l)
  = Ok (set_reasons (reason_breakdown (forget_reasons_from 10 l)) r).
Proof.
  intros Hs. rewrite (stats_same_numbers l).
  - by rewrite Hs.
  - unfold forget_reasons_from. rewrite map_app, map_map. simpl.
    change (fun x => Trade.pnl x) with Trade.pnl.
    by rewrite <- map_app, take_drop.
  - unfold forget_reasons_from.
    destruct (decide (length l ≤ 10)%nat).
    + rewrite drop_ge by done. simpl. by rewrite app_nil_r, take_take.
    + rewrite take_app_le.
      * by rewrite take_take.
      * rewrite length_take. lia.
Qed.

Lemma X10_reasons_matter_in_first_ten_witness :
  ∃ r, stats twelve_trades = Ok r
       ∧ stats (forget_reasons_from 10 twelve_trades)
         = Ok (set_reasons
                 (reason_breakdown (forget_reasons_from 10 twelve_trades)) r)
       ∧ length (sample r) = 10%nat
       ∧ reasons r !! "unknown" = None
       ∧ reasons r !! "take_profit" = Some 12%nat
       ∧ reason_breakdown (forget_reasons_from 10 twelve_trades) !! "unknown"
         = Some 2%nat
       ∧ reason_breakdown (forget_reasons_from 10 twelve_trades) !! "take_profit"
         = Some 10%nat.
Proof.
  destruct (stats twelve_trades) as [r|] eqn:Hs.
  - exists r. split; [reflexivity|]. split.
    + exact (X10_reasons_matter_in_first_ten twelve_trades r Hs).
    + vm_compute in Hs. injection Hs as <-. vm_compute. done.
  - vm_compute in Hs. discriminate Hs.
Defined.

(** X11.  When every kept P&L is an [int], the total of the report is their
    exact sum, and it is at most 50 times the number of kept trades in
    absolute value. *)
Theorem X11_integer_pnl_total ts r c zs :
  main ts = Ok (Some r, c) →
  map Trade.pnl (trades c) = map PyInt zs →
  total_pnl r = PyInt (int_total zs)
  ∧ Z.abs (int_total zs) <= 50 * Z.of_nat (total_trades c).
Proof.
  intros Hm Hz. apply main_Ok_cleaned in Hm as Hc. subst c. simpl in *.
  unfold main in Hm. destruct (valid_trades ts) as [|t l] eqn:Hv; [discriminate|].
  destruct (stats (t :: l)) as [r'|] eqn:Hs; [|discriminate].
  injection Hm as ->. apply stats_Ok_total in Hs.
  rewrite Hz in Hs. unfold py_sum in Hs. rewrite py_sum_from_ints in Hs.
  injection Hs as <-. split; [done|].
  replace (length (t :: l)) with (length zs)
    by (by rewrite <- (length_map PyInt zs), <- Hz, length_map).
  apply int_total_bound. rewrite Forall_forall. intros z Hin.
  apply int_not_outlier.
  apply list_elem_of_In, (in_map PyInt) in Hin. rewrite <- Hz, in_map_iff in Hin.
  destruct Hin as (u & Hu & Hin). rewrite <- Hu.
  apply (valid_trades_not_outlier ts). rewrite Hv. by apply list_elem_of_In.
Qed.

Lemma X11_integer_pnl_total_witness :
  ∃ r c, main [sol; eth_fifty] = Ok (Some r, c)
         ∧ total_pnl r = PyInt (int_total [10; 50]).
Proof.
  destruct (main [sol; eth_fifty]) as [[[r|] c]|] eqn:Hm.
  - exists r, c. split; [reflexivity|].
    refine (proj1 (X11_integer_pnl_total [sol; eth_fifty] r c [10; 50] Hm _)).
    apply main_Ok_cleaned in Hm. rewrite Hm. vm_compute. reflexivity.
  - vm_compute in Hm. discriminate Hm.
  - vm_compute in Hm. discriminate Hm.
Defined.

(** X12.  No run divides by zero: the statistics divide by zero on the
    empty list and on no other, and they are computed only when a record is
    kept. *)
Theorem X12_no_division_by_zero ts l :
  main ts ≠ Raise ZeroDivisionError
  ∧ (stats l = Raise ZeroDivisionError ↔ l = []).
Proof.
  split; [|split].
  - apply main_no_zero_division.
  - destruct l as [|t l]; [done|].
    intros [?|?]%stats_raise; discriminate.
  - intros ->. apply stats_nil.
Qed.

(** ** The backup and the files *)

Section BackupPath.

Lemma backup_path_not_log now : backup_path now ≠ trade_log_path.
Proof. unfold backup_path, trade_log_path. simpl. discriminate. Qed.

Lemma digit_inj a b : digit a = digit b → (a mod 10 = b mod 10)%N.
Proof.
  unfold digit. intros H%(f_equal N_of_ascii).
  rewrite !N_ascii_embedding in H; [lia|..];
    pose proof (N.mod_upper_bound a 10); pose proof (N.mod_upper_bound b 10); lia.
Qed.

(** A number below 100 from its two digits. *)
Lemma two_digits_value n :
  (n mod 100 = 10 * ((n / 10) mod 10) + n mod 10)%N.
Proof. change 100%N with (10 * 10)%N. rewrite N.Div0.mod_mul_r. lia. Qed.

Lemma two_digits_inj_mod n m :
  two_digits n = two_digits m → (n mod 100 = m mod 100)%N.
Proof.
  intros [= H1%digit_inj H2%digit_inj]. rewrite !two_digits_value. lia.
Qed.

Lemma two_digits_inj n m :
  (n < 100)%N → (m < 100)%N → two_digits n = two_digits m → n = m.
Proof.
  intros Hn Hm H%two_digits_inj_mod. by rewrite !N.mod_small in H.
Qed.

Lemma four_digits_inj n m :
  (n < 10000)%N → (m < 10000)%N → four_digits n = four_digits m → n = m.
Proof.
  intros Hn Hm H.
  assert (two_digits (n / 100)%N = two_digits (m / 100)%N
          ∧ two_digits n = two_digits m) as [H1 H2].
  { unfold four_digits, two_digits in *. simpl in H. by injection H as -> -> -> ->. }
  apply two_digits_inj in H1; [|apply N.Div0.div_lt_upper_bound; lia..].
  apply two_digits_inj_mod in H2.
  rewrite (N.div_mod n 100), (N.div_mod m 100) by done. by rewrite H1, H2.
Qed.

Lemma strftime_parts d d' :
  strftime d = strftime d' →
  four_digits (year d) = four_digits (year d')
  ∧ two_digits (month d) = two_digits (month d')
  ∧ two_digits (day d) = two_digits (day d')
  ∧ two_digits (hour d) = two_digits (hour d')
  ∧ two_digits (minute d) = two_digits (minute d')
  ∧ two_digits (second d) = two_digits (second d').
Proof.
  unfold strftime, four_digits, two_digits. simpl.
  intros [= -> -> -> -> -> -> -> -> -> -> -> -> -> ->]. done.
Qed.

Lemma strftime_inj d d' :
  valid_datetime d = true → valid_datetime d' = true →
  strftime d = strftime d' → d = d'.
Proof.
  unfold valid_datetime. rewrite !andb_true_iff, !N.leb_le.
  intros Hd Hd' (Hy & Hm & Hdy & Hh & Hmi & Hs)%strftime_parts.
  apply four_digits_inj in Hy; [|lia..].
  apply two_digits_inj in Hm, Hdy, Hh, Hmi, Hs; [|lia..].
  destruct d, d'. simpl in *. by subst.
Qed.

Lemma append_inj_r (p s1 s2 : string) : p +:+ s1 = p +:+ s2 → s1 = s2.
Proof. induction p as [|a p IH]; simpl; [done|]. intros [= H]. auto. Qed.

Lemma append_inj_l (s1 s2 q : string) :
  String.length s1 = String.length s2 → s1 +:+ q = s2 +:+ q → s1 = s2.
Proof.
  revert s2. induction s1 as [|a s1 IH]; intros [|b s2]; simpl; try done.
  intros [= Hl] [= -> H]. f_equal. auto.
Qed.

Lemma strftime_length d : String.length (strftime d) = 15%nat.
Proof. reflexivity. Qed.

Lemma backup_path_inj d d' :
  valid_datetime d = true → valid_datetime d' = true →
  backup_path d = backup_path d' → d = d'.
Proof.
  intros Hd Hd' H%append_inj_r%append_inj_l; [by apply strftime_inj|].
  by rewrite !strftime_length.
Qed.

End BackupPath.

(** X13.  The backup is never the log itself, and, for times with a
    four-digit year, two backups have the same path exactly when they are
    made in the same second. *)
Theorem X13_backup_paths d d' :
  backup_path d ≠ trade_log_path
  ∧ (valid_datetime d = true → valid_datetime d' = true →
     (backup_path d = backup_path d' ↔ d = d')).
Proof.
  split; [apply backup_path_not_log|].
  intros Hd Hd'. split; [by apply backup_path_inj|by intros ->].
Qed.

Lemma X13_backup_paths_witness :
  backup_path new_year = backup_path a_second_later ↔ new_year = a_second_later.
Proof.
  apply (X13_backup_paths new_year a_second_later); vm_compute; reflexivity.
Defined.

Section Run.
Context `{JsonFile contents}.
Implicit Types (fs : gmap string contents) (now : datetime).

Lemma main_again ts r c :
  main ts = Ok (r, c) → main (trades c) = Ok (r, cleaned_log_of (trades c)).
Proof.
  intros Hm. apply main_Ok_cleaned in Hm as Hc. subst c. simpl.
  unfold main in *.
  assert (valid_trades (valid_trades ts) = valid_trades ts) as ->.
  { unfold valid_trades at 1 3. by rewrite filter_loop_idem. }
  destruct (valid_trades ts) as [|t l] eqn:Hv.
  - injection Hm as <-. unfold cleaned_log_of. simpl. done.
  - destruct (stats (t :: l)); simpl in *; [|discriminate].
    injection Hm as <-. unfold cleaned_log_of. simpl.
    assert (valid_trades (t :: l) = t :: l) as ->; [|done].
    rewrite <- Hv. unfold valid_trades at 1 3. by rewrite filter_loop_idem.
Qed.

(** X14.  A run changes no file but the backup and the log.  Without a log
    it changes nothing and ends with FileNotFoundError; with one, the
    backup holds the contents the log had; and a run that ends with an
    exception leaves the log as it was. *)
Theorem X14_what_a_run_changes now fs :
  (∀ p, p ≠ trade_log_path → p ≠ backup_path now →
     fst (run now fs) !! p = fs !! p)
  ∧ (fs !! trade_log_path = None → run now fs = (fs, inl FileNotFoundError))
  ∧ (∀ original, fs !! trade_log_path = Some original →
       fst (run now fs) !! backup_path now = Some original)
  ∧ (∀ e, snd (run now fs) = inl e →
       fst (run now fs) !! trade_log_path = fs !! trade_log_path).
Proof.
  pose proof (backup_path_not_log now) as Hne.
  unfold run. split_and!.
  - intros p Hp1 Hp2.
    destruct (fs !! trade_log_path) as [original|]; [|done].
    destruct (load_trades original) as [ts|]; simpl;
      [destruct (main ts); simpl|]; by rewrite ?lookup_insert_ne.
  - by intros ->.
  - intros original ->.
    destruct (load_trades original) as [ts|]; simpl;
      [destruct (main ts); simpl|];
      by rewrite ?(lookup_insert_ne _ trade_log_path), lookup_insert_eq.
  - intros e.
    destruct (fs !! trade_log_path) as [original|] eqn:Ho; [|done].
    destruct (load_trades original) as [ts|]; simpl;
      [destruct (main ts); simpl|]; try discriminate;
      by rewrite lookup_insert_ne.
Qed.

Lemma run_inr_inv now fs r c :
  snd (run now fs) = inr (r, c) →
  ∃ original ts,
    fs !! trade_log_path = Some original
    ∧ load_trades original = Some ts
    ∧ main ts = Ok (r, c)
    ∧ c = cleaned_log_of ts
    ∧ fst (run now fs) !! trade_log_path = Some (dump c)
    ∧ fst (run now fs) !! backup_path now = Some original
    ∧ load_trades (dump c) = Some (valid_trades ts).
Proof.
  pose proof (backup_path_not_log now) as Hne.
  unfold run.
  destruct (fs !! trade_log_path) as [original|] eqn:Ho; [|discriminate].
  destruct (load_trades original) as [ts|] eqn:Hl; [|discriminate].
  destruct (main ts) as [[r' c']|] eqn:Hm; [|discriminate].
  simpl. intros [= -> ->]. exists original, ts.
  apply main_Ok_cleaned in Hm as Hc.
  split_and!; try done.
  - simpl. by rewrite lookup_insert_eq.
  - simpl. by rewrite lookup_insert_ne, lookup_insert_eq.
  - rewrite load_dump. by subst c.
Qed.

(** X16.  A second run in the same second as a first one that completed
    completes with the same report, and writes the cleaned log over the
    backup: the backup no longer holds the original log. *)
Theorem X16_second_run_in_the_same_second now fs r c :
  snd (run now fs) = inr (r, c) →
  let fs1 := fst (run now fs) in
  snd (run now fs1) = inr (r, cleaned_log_of (trades c))
  ∧ fst (run now fs1) !! backup_path now = Some (dump c)
  ∧ fst (run now fs1) !! trade_log_path = Some (dump (cleaned_log_of (trades c))).
Proof.
  intros Hrun. pose proof (backup_path_not_log now) as Hne.
  destruct (run_inr_inv now fs r c Hrun)
    as (original & ts & Ho & Hl & Hm & Hc & Hlog & Hbak & Hload).
  simpl. unfold run at 1 3 5. rewrite Hlog, load_dump.
  rewrite (main_again ts r c Hm). simpl.
  split_and!; [done|..].
  - by rewrite lookup_insert_ne, lookup_insert_eq.
  - by rewrite lookup_insert_eq.
Qed.

(** X17.  A second run with another backup path, after a first one that
    completed, completes with the same report, leaves the first backup
    with the original log and makes a backup of the cleaned log. *)
Theorem X17_second_run_later now now' fs r c :
  backup_path now' ≠ backup_path now →
  snd (run now fs) = inr (r, c) →
  let fs1 := fst (run now fs) in
  snd (run now' fs1) = inr (r, cleaned_log_of (trades c))
  ∧ fst (run now' fs1) !! backup_path now = fs !! trade_log_path
  ∧ fst (run now' fs1) !! backup_path now' = Some (dump c).
Proof.
  intros Hdiff Hrun. pose proof (backup_path_not_log now) as Hne.
  pose proof (backup_path_not_log now') as Hne'.
  destruct (run_inr_inv now fs r c Hrun)
    as (original & ts & Ho & Hl & Hm & Hc & Hlog & Hbak & Hload).
  simpl. unfold run at 1 3 5. rewrite Hlog, load_dump.
  rewrite (main_again ts r c Hm). simpl.
  split_and!; [done|..].
  - by rewrite !lookup_insert_ne, Hbak, Ho by done.
  - by rewrite lookup_insert_ne, lookup_insert_eq.
Qed.

End Run.

Lemma X14_what_a_run_changes_witness :
  fst (run new_year two_sol_files) !! backup_path new_year
  = Some (RawLog [sol; sol_float]).
Proof.
  destruct (X14_what_a_run_changes new_year two_sol_files) as (_ & _ & H & _).
  apply H. vm_compute. reflexivity.
Defined.

Lemma X16_second_run_in_the_same_second_witness :
  ∃ c, fst (run new_year (fst (run new_year two_sol_files))) !! backup_path new_year
       = Some (CleanedLog c).
Proof.
  destruct (snd (run new_year two_sol_files)) as [e|[r c]] eqn:Hrun.
  - vm_compute in Hrun. discriminate Hrun.
  - exists c.
    exact (proj1 (proj2
      (X16_second_run_in_the_same_second new_year two_sol_files r c Hrun))).
Defined.

Lemma X17_second_run_later_witness :
  fst (run a_second_later (fst (run new_year two_sol_files))) !! backup_path new_year
  = Some (RawLog [sol; sol_float]).
Proof.
  destruct (snd (run new_year two_sol_files)) as [e|[r c]] eqn:Hrun.
  - vm_compute in Hrun. discriminate Hrun.
  - refine (eq_trans (proj1 (proj2
      (X17_second_run_later new_year a_second_later two_sol_files r c _ Hrun))) _).
    + vm_compute. discriminate.
    + vm_compute. reflexivity.
Defined.

Example strftime_example :
  strftime {| year := 2026; month := 11; day := 3;
              hour := 9; minute := 51; second := 7 |}
  = "20261103_095107"
  ∧ backup_path new_year = "bot/build/trade_log_backup_20260101_000000.json".
Proof. vm_compute. split; reflexivity. Qed.
